(** * tuling: a shallow embedding of the layer editor

    The development follows the source tree:
    - [JS]               the JavaScript primitives the handlers rely on;
    - types.ts           [LayerType], [FontStyle], [Layer], [AspectRatio],
                         [BackgroundConfig];
    - App.tsx            the session state, the layer-store handlers,
                         image loading and the export pipeline
                         ([Module App]);
    - LayerComponent.tsx the resize and rotate gestures
                         ([Module LayerComponent]);
    - geminiService.ts   the caption collaborator
                         ([Module GeminiService]).
    [LayerStore] names the store operations of the specification after
    the handlers that implement them, [Spec] words the snapping rule as
    the specification does, and [Sample] holds concrete sessions.  The
    properties come last.

    JavaScript numbers are modelled as exact rationals ([Q]): every
    finite double is a rational, and the handlers only add, subtract,
    multiply, divide, compare and round.  Rounding error of IEEE
    arithmetic, NaN and the infinities are outside the model (in
    particular a division by zero yields 0 here). *)

From Stdlib Require Import List String Bool ZArith QArith Qround Qabs Qminmax.
From Stdlib Require Import DecimalString.
From Stdlib Require Import Lia Lqa.
Import ListNotations.

Open Scope string_scope.
Open Scope Q_scope.

(* ================================================================== *)
(** * JavaScript primitives *)
(* ================================================================== *)

Module JS.

Definition number := Q.

(** The one-character string holding a double quote (code point 34). *)
Definition dquote : string := String (Ascii.ascii_of_nat 34) EmptyString.

Definition ltb (a b : number) : bool := negb (Qle_bool b a).
Definition gtb (a b : number) : bool := ltb b a.

(** [Math.trunc]: the integer part, rounded toward zero. *)
Definition trunc (x : number) : Z :=
  if Qle_bool 0 x then Qfloor x else Qceiling x.

(** [a % b]: the remainder carries the sign of the dividend. *)
Definition rem (a b : number) : number :=
  a - b * inject_Z (trunc (a / b)).

(** [Math.round]: nearest integer, halves rounded toward +infinity. *)
Definition Math_round (x : number) : number :=
  inject_Z (Qfloor (x + (1 # 2))).

Definition Math_abs (x : number) : number := Qabs x.

(** [Math.max(a, b)] *)
Definition Math_max (a b : number) : number :=
  if Qle_bool a b then b else a.

(** Truthiness of a [string | null] value: [null] and the empty
    string are falsy. *)
Definition truthy (v : option string) : bool :=
  match v with
  | None => false
  | Some s => negb (String.eqb s EmptyString)
  end.

(** How an evaluation (or an awaited promise) completes: with a value,
    or by throwing (rejecting with) an error, here its message. *)
Inductive Completion (A : Type) :=
| Normal (a : A)
| Throw (e : string).
Arguments Normal {A} a.
Arguments Throw {A} e.

(** [a === b] on [string | null]. *)
Definition strict_eq (a b : option string) : bool :=
  match a, b with
  | None, None => true
  | Some x, Some y => String.eqb x y
  | _, _ => false
  end.

End JS.

(* ================================================================== *)
(** * types.ts *)
(* ================================================================== *)

Inductive LayerType := TEXT | STICKER.

Definition LayerType_eqb (a b : LayerType) : bool :=
  match a, b with
  | TEXT, TEXT | STICKER, STICKER => true
  | _, _ => false
  end.

Inductive TextAlign := AlignLeft | AlignCenter | AlignRight.

Record FontStyle := mkFontStyle {
  fontFamily : string;
  fontSize : JS.number;
  color : string;
  backgroundColor : string;
  fontWeight : string;
  textAlign : TextAlign;
  padding : JS.number;
  borderRadius : JS.number;
  lineHeight : JS.number;
}.

(** [style?: FontStyle] is an optional field: [None] is the absent key. *)
Record Layer := mkLayer {
  id : string;
  type : LayerType;
  x : JS.number;
  y : JS.number;
  width : JS.number;
  height : JS.number;
  rotation : JS.number;
  content : string;
  style : option FontStyle;
}.

Record AspectRatio := mkAspectRatio {
  ar_name : string;
  ar_width : JS.number;
  ar_height : JS.number;
  ar_label : string;
  ar_icon : string;
}.

Record BackgroundConfig := mkBackgroundConfig {
  bg_scale : JS.number;
  bg_x : JS.number;
  bg_y : JS.number;
  bg_filter : string;
}.

(** [Partial<FontStyle>] and [Partial<Layer>]: every key may be missing.
    A key that is present carries a value of the field's type. *)
Record PartialFontStyle := mkPartialFontStyle {
  p_fontFamily : option string;
  p_fontSize : option JS.number;
  p_color : option string;
  p_backgroundColor : option string;
  p_fontWeight : option string;
  p_textAlign : option TextAlign;
  p_padding : option JS.number;
  p_borderRadius : option JS.number;
  p_lineHeight : option JS.number;
}.

Record PartialLayer := mkPartialLayer {
  p_id : option string;
  p_type : option LayerType;
  p_x : option JS.number;
  p_y : option JS.number;
  p_width : option JS.number;
  p_height : option JS.number;
  p_rotation : option JS.number;
  p_content : option string;
  p_style : option FontStyle;
}.

Definition noStyleUpdates : PartialFontStyle :=
  mkPartialFontStyle None None None None None None None None None.

Definition noUpdates : PartialLayer :=
  mkPartialLayer None None None None None None None None None.

(** [override old upd]: the value of one key of [{ ...old, ...upd }]. *)
Definition override {A : Type} (old : A) (upd : option A) : A :=
  match upd with
  | Some v => v
  | None => old
  end.

(** [{ ...st, ...styleUpdates }] *)
Definition spreadStyle (st : FontStyle) (u : PartialFontStyle) : FontStyle :=
  {| fontFamily := override (fontFamily st) (p_fontFamily u);
     fontSize := override (fontSize st) (p_fontSize u);
     color := override (color st) (p_color u);
     backgroundColor := override (backgroundColor st) (p_backgroundColor u);
     fontWeight := override (fontWeight st) (p_fontWeight u);
     textAlign := override (textAlign st) (p_textAlign u);
     padding := override (padding st) (p_padding u);
     borderRadius := override (borderRadius st) (p_borderRadius u);
     lineHeight := override (lineHeight st) (p_lineHeight u) |}.

(** [{ ...l, ...updates }]; the optional [style] key keeps the old
    value unless [updates] carries one. *)
Definition spreadLayer (l : Layer) (u : PartialLayer) : Layer :=
  {| id := override (id l) (p_id u);
     type := override (type l) (p_type u);
     x := override (x l) (p_x u);
     y := override (y l) (p_y u);
     width := override (width l) (p_width u);
     height := override (height l) (p_height u);
     rotation := override (rotation l) (p_rotation u);
     content := override (content l) (p_content u);
     style := match p_style u with
              | Some st => Some st
              | None => style l
              end |}.

(* ================================================================== *)
(** * App.tsx *)
(* ================================================================== *)

(** The repository carries two revisions of App.tsx: a responsive one
    (mobile sheet, theme toggle) and a desktop-only one.  The handlers
    agree except where a definition below branches on the revision. *)
Inductive Revision := Responsive | Desktop.


Module App.

Import JS.

Definition INITIAL_TEXT_STYLE : FontStyle :=
  {| fontFamily := JS.dquote ++ "Noto Sans SC" ++ JS.dquote ++ ", sans-serif";
     fontSize := 42;
     color := "#ffffff";
     backgroundColor := "rgba(0,0,0,0)";
     fontWeight := "bold";
     textAlign := AlignCenter;
     padding := 10;
     borderRadius := 0;
     lineHeight := 1.2 |}.

Definition INITIAL_BG_CONFIG : BackgroundConfig :=
  {| bg_scale := 1; bg_x := 0; bg_y := 0; bg_filter := "none" |}.

(** ASPECT_RATIOS[0] of constants.ts, the initial frame. *)
Definition ASPECT_RATIO_SQUARE : AspectRatio :=
  {| ar_name := "1:1"; ar_width := 1080; ar_height := 1080;
     ar_label := "正方形"; ar_icon := "square" |}.

(** ** Session state

    The [useState] cells and the two refs the handlers read.  The cells
    that only drive panel chrome (active tab, theme, mobile sheet) are
    written by none of the handlers below and are left out.
    [workspaceRef] tells whether [workspaceRef.current] is a mounted
    element; [fontCssRef] is [fontCssRef.current]. *)
Record AppState := mkAppState {
  image : option string;
  layers : list Layer;
  selectedLayerId : option string;
  aspectRatio : AspectRatio;
  originalSize : option (JS.number * JS.number);
  bgConfig : BackgroundConfig;
  isExporting : bool;
  canvasScale : JS.number;
  isMobile : bool;
  workspaceRef : bool;
  fontCssRef : string;
}.

Definition initialState : AppState :=
  {| image := None; layers := []; selectedLayerId := None;
     aspectRatio := ASPECT_RATIO_SQUARE; originalSize := None;
     bgConfig := INITIAL_BG_CONFIG; isExporting := false;
     canvasScale := 0.6; isMobile := false;
     workspaceRef := false; fontCssRef := EmptyString |}.

(** ** Capture options handed to html-to-image *)

Record CommonConfig := mkCommonConfig {
  skipAutoScale : bool;
  pixelRatio : JS.number;
  cfg_width : JS.number;
  cfg_height : JS.number;
  canvasWidth : JS.number;
  canvasHeight : JS.number;
  fontEmbedCSS : string;
  style_transform : string;
  style_transformOrigin : string;
  fetch_mode : string;
  fetch_credentials : string;
}.

(** [{ ...commonConfig, cacheBust }] *)
Record ToPngOptions := mkToPngOptions {
  common : CommonConfig;
  cacheBust : bool;
}.

(** ** Effects

    What a handler does besides writing state cells, in program order.
    [ToPng dom opts] records a call of [toPng] together with the state
    the captured element is rendered from at that moment. *)
Inductive Effect :=
| Alert (msg : string)
| ConsoleError (msg : string)
| ConsoleWarn (msg : string)
| SetTimeout (ms : Z)
| ToPng (dom : AppState) (opts : ToPngOptions)
| Download (filename href : string).

(** ** The handler monad: state cells, an effect trace and exceptions.
    A thrown exception keeps the state written so far, as in JavaScript. *)
Definition M (A : Type) : Type :=
  AppState -> Completion A * AppState * list Effect.

Definition ret {A} (a : A) : M A := fun s => (Normal a, s, []).

Definition bind {A B} (c : M A) (k : A -> M B) : M B :=
  fun s =>
    match c s with
    | (Normal a, s1, t1) =>
        let '(r, s2, t2) := k a s1 in (r, s2, (t1 ++ t2)%list)
    | (Throw e, s1, t1) => (Throw e, s1, t1)
    end.

Notation "x <- c1 ;; c2" := (bind c1 (fun x => c2))
  (at level 61, c1 at next level, right associativity).
Notation "c1 ;; c2" := (bind c1 (fun _ => c2))
  (at level 61, right associativity).

Definition get : M AppState := fun s => (Normal s, s, []).
Definition modify (f : AppState -> AppState) : M unit :=
  fun s => (Normal tt, f s, []).
Definition emit (e : Effect) : M unit := fun s => (Normal tt, s, [e]).
Definition throw {A} (e : string) : M A := fun s => (Throw e, s, []).

(** [try { body } catch (e) { handler e }] *)
Definition try_catch {A} (body : M A) (handler : string -> M A) : M A :=
  fun s =>
    match body s with
    | (Normal a, s1, t1) => (Normal a, s1, t1)
    | (Throw e, s1, t1) =>
        let '(r, s2, t2) := handler e s1 in (r, s2, (t1 ++ t2)%list)
    end.

(** [try { body } finally { fin }]: [fin] runs on every completion of
    [body]; the completion of [body] stands unless [fin] throws. *)
Definition try_finally {A} (body : M A) (fin : M unit) : M A :=
  fun s =>
    let '(r, s1, t1) := body s in
    match fin s1 with
    | (Normal _, s2, t2) => (r, s2, (t1 ++ t2)%list)
    | (Throw e, s2, t2) => (Throw e, s2, (t1 ++ t2)%list)
    end.

Definition finalState {A} (r : Completion A * AppState * list Effect)
  : AppState := snd (fst r).
Definition effects {A} (r : Completion A * AppState * list Effect)
  : list Effect := snd r.
Definition completion {A} (r : Completion A * AppState * list Effect)
  : Completion A := fst (fst r).

(** ** State setters *)

Definition setImage (v : option string) : M unit :=
  modify (fun s => {| image := v; layers := layers s;
    selectedLayerId := selectedLayerId s; aspectRatio := aspectRatio s;
    originalSize := originalSize s; bgConfig := bgConfig s;
    isExporting := isExporting s; canvasScale := canvasScale s;
    isMobile := isMobile s; workspaceRef := workspaceRef s;
    fontCssRef := fontCssRef s |}).

(** [setLayers(prev => f prev)] *)
Definition setLayers (f : list Layer -> list Layer) : M unit :=
  modify (fun s => {| image := image s; layers := f (layers s);
    selectedLayerId := selectedLayerId s; aspectRatio := aspectRatio s;
    originalSize := originalSize s; bgConfig := bgConfig s;
    isExporting := isExporting s; canvasScale := canvasScale s;
    isMobile := isMobile s; workspaceRef := workspaceRef s;
    fontCssRef := fontCssRef s |}).

Definition setSelectedLayerId (v : option string) : M unit :=
  modify (fun s => {| image := image s; layers := layers s;
    selectedLayerId := v; aspectRatio := aspectRatio s;
    originalSize := originalSize s; bgConfig := bgConfig s;
    isExporting := isExporting s; canvasScale := canvasScale s;
    isMobile := isMobile s; workspaceRef := workspaceRef s;
    fontCssRef := fontCssRef s |}).

Definition setAspectRatio (v : AspectRatio) : M unit :=
  modify (fun s => {| image := image s; layers := layers s;
    selectedLayerId := selectedLayerId s; aspectRatio := v;
    originalSize := originalSize s; bgConfig := bgConfig s;
    isExporting := isExporting s; canvasScale := canvasScale s;
    isMobile := isMobile s; workspaceRef := workspaceRef s;
    fontCssRef := fontCssRef s |}).

Definition setOriginalSize (v : option (JS.number * JS.number)) : M unit :=
  modify (fun s => {| image := image s; layers := layers s;
    selectedLayerId := selectedLayerId s; aspectRatio := aspectRatio s;
    originalSize := v; bgConfig := bgConfig s;
    isExporting := isExporting s; canvasScale := canvasScale s;
    isMobile := isMobile s; workspaceRef := workspaceRef s;
    fontCssRef := fontCssRef s |}).

Definition setBgConfig (v : BackgroundConfig) : M unit :=
  modify (fun s => {| image := image s; layers := layers s;
    selectedLayerId := selectedLayerId s; aspectRatio := aspectRatio s;
    originalSize := originalSize s; bgConfig := v;
    isExporting := isExporting s; canvasScale := canvasScale s;
    isMobile := isMobile s; workspaceRef := workspaceRef s;
    fontCssRef := fontCssRef s |}).

Definition setIsExporting (v : bool) : M unit :=
  modify (fun s => {| image := image s; layers := layers s;
    selectedLayerId := selectedLayerId s; aspectRatio := aspectRatio s;
    originalSize := originalSize s; bgConfig := bgConfig s;
    isExporting := v; canvasScale := canvasScale s;
    isMobile := isMobile s; workspaceRef := workspaceRef s;
    fontCssRef := fontCssRef s |}).

Definition setCanvasScale (v : JS.number) : M unit :=
  modify (fun s => {| image := image s; layers := layers s;
    selectedLayerId := selectedLayerId s; aspectRatio := aspectRatio s;
    originalSize := originalSize s; bgConfig := bgConfig s;
    isExporting := isExporting s; canvasScale := v;
    isMobile := isMobile s; workspaceRef := workspaceRef s;
    fontCssRef := fontCssRef s |}).

(** ** Handlers

    A handler is a closure created by a render: it reads the state cells
    of that render ([closure]) and writes through the setters, which act
    on the current state.  [invoke] runs a handler of the latest render,
    the one an event reaches. *)
Definition invoke {A} (handler : AppState -> M A) : M A :=
  fun s => handler s s.

(** A file the picker returned, once [FileReader] and [Image] have
    loaded it: its data URL and natural pixel size. *)
Record LoadedImage := mkLoadedImage {
  result : string;
  naturalWidth : JS.number;
  naturalHeight : JS.number;
}.

(** [handleImageUpload], as its [img.onload] callback completes it:
    [file] is [None] when no file was chosen, in which case no callback
    is installed.  The desktop revision has no [isReplace] parameter.
    Clearing the input element's value touches no state cell. *)
Definition handleImageUpload (rev : Revision) (file : option LoadedImage)
    (isReplace : bool) (closure : AppState) : M unit :=
  match file with
  | Some img =>
      let width := naturalWidth img in
      let height := naturalHeight img in
      let isOriginal := String.eqb (ar_name (aspectRatio closure)) "original" in
      setOriginalSize (Some (width, height)) ;;
      (if match rev with
          | Responsive =>
              negb (JS.truthy (image closure))
              || (negb isReplace && isOriginal)
              || (isReplace && isOriginal)
          | Desktop =>
              negb (JS.truthy (image closure)) || isOriginal
          end
       then setAspectRatio {| ar_name := "original"; ar_width := width;
                              ar_height := height; ar_label := "原图";
                              ar_icon := "image" |}
       else ret tt) ;;
      setImage (Some (result img)) ;;
      setBgConfig INITIAL_BG_CONFIG
  | None => ret tt
  end.

(** [addTextLayer]; [uuid] is the value [uuidv4()] returns. *)
Definition addTextLayer (rev : Revision) (uuid : string)
    (closure : AppState) : M unit :=
  if negb (JS.truthy (image closure)) then emit (Alert "请先上传图片")
  else
    let content := "双击编辑文本" in
    let newLayer :=
      {| id := uuid;
         type := TEXT;
         x := ar_width (aspectRatio closure) / 2 - 200;
         y := match rev with
              | Responsive =>
                  if isMobile closure
                  then ar_height (aspectRatio closure) * 0.2
                  else ar_height (aspectRatio closure) / 2 - 75
              | Desktop => ar_height (aspectRatio closure) / 2 - 75
              end;
         width := 400; height := 150; rotation := 0; content := content;
         style := Some INITIAL_TEXT_STYLE |} in
    setLayers (fun prev => (prev ++ [newLayer])%list) ;;
    setSelectedLayerId (Some (id newLayer)).

Definition addStickerLayer (rev : Revision) (uuid : string) (sticker : string)
    (closure : AppState) : M unit :=
  if negb (JS.truthy (image closure)) then emit (Alert "请先上传图片")
  else
    let newLayer :=
      {| id := uuid;
         type := STICKER;
         x := ar_width (aspectRatio closure) / 2 - 50;
         y := match rev with
              | Responsive =>
                  if isMobile closure
                  then ar_height (aspectRatio closure) * 0.2
                  else ar_height (aspectRatio closure) / 2 - 50
              | Desktop => ar_height (aspectRatio closure) / 2 - 50
              end;
         width := 150; height := 150; rotation := 0; content := sticker;
         style := None |} in
    setLayers (fun prev => (prev ++ [newLayer])%list) ;;
    setSelectedLayerId (Some (id newLayer)).

Definition updateLayer (lid : string) (updates : PartialLayer) : M unit :=
  setLayers (fun prev =>
    map (fun l => if String.eqb (id l) lid then spreadLayer l updates else l)
        prev).

(** The style [{ ...undefined, ...styleUpdates }] of a layer that has no
    style: only the updated keys exist.  The model has no value for a
    missing key of a style and fills it from this record; the store
    never holds a TEXT layer without style (see [LayerStore.wellStyled]). *)
Definition undefinedStyle : FontStyle :=
  mkFontStyle EmptyString 0 EmptyString EmptyString EmptyString AlignLeft 0 0 0.

Definition updateLayerStyle (lid : string) (styleUpdates : PartialFontStyle)
    : M unit :=
  setLayers (fun prev =>
    map (fun l =>
           if String.eqb (id l) lid && LayerType_eqb (type l) TEXT
           then {| id := id l; type := type l; x := x l; y := y l;
                   width := width l; height := height l;
                   rotation := rotation l; content := content l;
                   style := Some (spreadStyle
                                    (match style l with
                                     | Some st => st
                                     | None => undefinedStyle
                                     end) styleUpdates) |}
           else l)
        prev).

Definition deleteLayer (lid : string) (closure : AppState) : M unit :=
  setLayers (fun prev =>
    List.filter (fun l => negb (String.eqb (id l) lid)) prev) ;;
  if JS.strict_eq (selectedLayerId closure) (Some lid)
  then setSelectedLayerId None
  else ret tt.

(** The reset button. *)
Definition reset (rev : Revision) : M unit :=
  match rev with
  | Responsive =>
      setBgConfig INITIAL_BG_CONFIG ;; setLayers (fun _ => []) ;; setImage None
  | Desktop =>
      setImage None ;; setLayers (fun _ => []) ;; setOriginalSize None
  end.

(** ** Export pipeline *)

Section ExportPipeline.

(** [toPng] of html-to-image: given the element as currently rendered
    and the options, the promise resolves with a data URL or rejects. *)
Variable toPng : AppState -> ToPngOptions -> Completion string.

(** The value [Date.now()] returns when the download link is built. *)
Variable Date_now : Z.

Definition await_toPng (opts : ToPngOptions) : M string :=
  fun s => (toPng s opts, s, [ToPng s opts]).

(** The [commonConfig] object literal; [aspectRatio] is the closure's
    cell, [fontCssRef.current] is read when the literal is evaluated. *)
Definition commonConfig (closure now : AppState) : CommonConfig :=
  {| skipAutoScale := true;
     pixelRatio := 1;
     cfg_width := ar_width (aspectRatio closure);
     cfg_height := ar_height (aspectRatio closure);
     canvasWidth := ar_width (aspectRatio closure);
     canvasHeight := ar_height (aspectRatio closure);
     fontEmbedCSS := fontCssRef now;
     style_transform := "none";
     style_transformOrigin := "top left";
     fetch_mode := "cors";
     fetch_credentials := "omit" |}.

Definition string_of_Z (n : Z) : string :=
  NilZero.string_of_int (Z.to_int n).

Definition handleExport (rev : Revision) (closure : AppState) : M unit :=
  s0 <- get ;;
  if negb (workspaceRef s0) || negb (JS.truthy (image closure)) then ret tt
  else
    setIsExporting true ;;
    let originalSelection := selectedLayerId closure in
    setSelectedLayerId None ;;
    try_finally
      (try_catch
         (emit (SetTimeout 10) ;;
          s1 <- get ;;
          let commonConfig := commonConfig closure s1 in
          dataUrl <-
            try_catch
              (await_toPng {| common := commonConfig; cacheBust := false |})
              (fun error =>
                 match rev with
                 | Responsive => ret tt
                 | Desktop =>
                     emit (ConsoleWarn
                             "Fast export failed, retrying with cacheBust...")
                 end ;;
                 await_toPng {| common := commonConfig; cacheBust := true |}) ;;
          if JS.truthy (Some dataUrl)
          then emit (Download
                       ("tuling-design-" ++ string_of_Z Date_now ++ ".png")
                       dataUrl)
          else match rev with
               | Responsive => ret tt
               | Desktop => throw "Failed to generate image data"
               end)
         (fun err =>
            emit (ConsoleError "Export failed") ;;
            emit (Alert match rev with
                        | Responsive => "导出失败，请重试"
                        | Desktop => "导出失败，请重试 (Export Failed)"
                        end)))
      (setIsExporting false ;;
       setSelectedLayerId originalSelection).

End ExportPipeline.

(** The state between the two [setSelectedLayerId] calls of
    [handleExport]: the busy flag is up and nothing is selected. *)
Definition duringExport (s : AppState) : AppState :=
  finalState ((setIsExporting true ;; setSelectedLayerId None) s).

(** The size of the canvas html-to-image draws for given options, as
    that library documents them: [canvasWidth] and [canvasHeight] scaled
    by [pixelRatio] (nothing is shrunk, since [skipAutoScale] leaves the
    dimension check out). *)
Definition outputSize (opts : ToPngOptions) : JS.number * JS.number :=
  (canvasWidth (common opts) * pixelRatio (common opts),
   canvasHeight (common opts) * pixelRatio (common opts)).

End App.

(* ================================================================== *)
(** * components/LayerComponent.tsx *)
(* ================================================================== *)

(** The repository carries two revisions of the component; the later
    one adds the rotate handle.  The resize and drag callbacks are the
    same in both. *)
Module LayerComponent.

Import JS.

(** The resize handle react-rnd reports. *)
Inductive Direction :=
| Top | Right | Bottom | Left
| TopRight | BottomRight | BottomLeft | TopLeft.

Definition Direction_eqb (a b : Direction) : bool :=
  match a, b with
  | Top, Top | Right, Right | Bottom, Bottom | Left, Left
  | TopRight, TopRight | BottomRight, BottomRight
  | BottomLeft, BottomLeft | TopLeft, TopLeft => true
  | _, _ => false
  end.

(** [array.includes(v)] *)
Definition includes (array : list Direction) (v : Direction) : bool :=
  existsb (Direction_eqb v) array.

(** The four corner handles and the four edge handles. *)
Definition corners : list Direction :=
  [TopLeft; TopRight; BottomLeft; BottomRight].

Definition edges : list Direction := [Top; Bottom; Left; Right].

Record ResizeStartData := mkResizeStartData {
  rs_width : number;
  rs_height : number;
  rs_fontSize : number;
}.

(** The component's own cells: the two refs and the two [useState]
    flags. *)
Record Component := mkComponent {
  resizeStartData : option ResizeStartData;
  rotateOffset : number;
  isEditing : bool;
  isRotating : bool;
}.

Definition mount : Component :=
  {| resizeStartData := None; rotateOffset := 0;
     isEditing := false; isRotating := false |}.

(** The [layer] prop of the component keyed [lid]: App renders one
    component per entry of [layers], keyed by the layer id. *)
Definition layerProp (lid : string) (s : App.AppState) : option Layer :=
  find (fun l => String.eqb (id l) lid) (App.layers s).

(** ** Resize *)

Definition onResizeStart (layer : Layer) (c : Component) : Component :=
  match type layer, style layer with
  | TEXT, Some st =>
      {| resizeStartData :=
           Some {| rs_width := width layer; rs_height := height layer;
                   rs_fontSize := fontSize st |};
         rotateOffset := rotateOffset c;
         isEditing := isEditing c;
         isRotating := isRotating c |}
  | _, _ => c
  end.

(** One [onResize] callback of react-rnd: the handle, the element's
    size as [parseInt(ref.style.width)] and [parseInt(ref.style.height)]
    give it, and the new position. *)
Record ResizeEvent := mkResizeEvent {
  direction : Direction;
  ref_width : Z;
  ref_height : Z;
  position : number * number;
}.

(** The [updates] object [onResize] builds. *)
Definition resizeUpdates (layer : Layer) (c : Component) (e : ResizeEvent)
    : PartialLayer :=
  let newWidth := inject_Z (ref_width e) in
  let newHeight := inject_Z (ref_height e) in
  let isCorner :=
    includes [TopLeft; TopRight; BottomLeft; BottomRight] (direction e) in
  {| p_id := None; p_type := None;
     p_x := Some (fst (position e));
     p_y := Some (snd (position e));
     p_width := Some newWidth;
     p_height := Some newHeight;
     p_rotation := None; p_content := None;
     p_style :=
       match type layer, style layer, resizeStartData c, isCorner with
       | TEXT, Some st, Some start, true =>
           let scaleRatio := newHeight / rs_height start in
           Some {| fontFamily := fontFamily st;
                   fontSize := Math_max 12 (rs_fontSize start * scaleRatio);
                   color := color st;
                   backgroundColor := backgroundColor st;
                   fontWeight := fontWeight st;
                   textAlign := textAlign st;
                   padding := padding st;
                   borderRadius := borderRadius st;
                   lineHeight := lineHeight st |}
       | _, _, _, _ => None
       end |}.

Definition onResize (layer : Layer) (c : Component) (e : ResizeEvent)
    : App.M unit :=
  App.updateLayer (id layer) (resizeUpdates layer c e).

Definition onDragStop (layer : Layer) (d : number * number) : App.M unit :=
  App.updateLayer (id layer)
    {| p_id := None; p_type := None; p_x := Some (fst d); p_y := Some (snd d);
       p_width := None; p_height := None; p_rotation := None;
       p_content := None; p_style := None |}.

(** The [onChange] of the inline textarea. *)
Definition onChange (layer : Layer) (value : string) : App.M unit :=
  App.updateLayer (id layer)
    {| p_id := None; p_type := None; p_x := None; p_y := None;
       p_width := None; p_height := None; p_rotation := None;
       p_content := Some value; p_style := None |}.

(** The [onResize] callbacks of one gesture, each received by the
    render that followed the previous update.  Nothing happens once the
    layer has left the store, since its component is unmounted. *)
Fixpoint resizeMoves (lid : string) (c : Component) (es : list ResizeEvent)
    (s : App.AppState) : App.AppState :=
  match es with
  | [] => s
  | e :: es' =>
      match layerProp lid s with
      | Some layer =>
          resizeMoves lid c es' (App.finalState (onResize layer c e s))
      | None => s
      end
  end.

(** A whole resize gesture on the layer keyed [lid]: [onResizeStart],
    then the [onResize] callbacks. *)
Definition resizeGesture (lid : string) (c : Component)
    (es : list ResizeEvent) (s : App.AppState) : App.AppState :=
  match layerProp lid s with
  | Some layer => resizeMoves lid (onResizeStart layer c) es s
  | None => s
  end.

(** ** Rotate

    [startAngle] and [deg] stand for
    [Math.atan2(deltaY, deltaX) * (180 / Math.PI)], the pointer angle
    about the element's centre, the element being mounted. *)
Definition handleRotateStart (layer : Layer) (startAngle : number)
    (c : Component) : Component :=
  {| resizeStartData := resizeStartData c;
     rotateOffset := startAngle - rotation layer;
     isEditing := isEditing c;
     isRotating := true |}.

(** The snapping block of [handleMove]. *)
Definition snap (rotation : number) : number :=
  let normalizedRot := rem (rem rotation 360 + 360) 360 in
  if ltb normalizedRot 5 || gtb normalizedRot 355
  then Math_round (rotation / 360) * 360
  else if ltb (Math_abs (normalizedRot - 90)) 5
  then Math_round (rotation / 360) * 360 + 90
  else if ltb (Math_abs (normalizedRot - 180)) 5
  then Math_round (rotation / 360) * 360 + 180
  else if ltb (Math_abs (normalizedRot - 270)) 5
  then Math_round (rotation / 360) * 360 + 270
  else rotation.

Definition handleMove (lid : string) (c : Component) (deg : number)
    : App.M unit :=
  let rotation := deg - rotateOffset c in
  let rotation := snap rotation in
  App.updateLayer lid
    {| p_id := None; p_type := None; p_x := None; p_y := None;
       p_width := None; p_height := None; p_rotation := Some rotation;
       p_content := None; p_style := None |}.

(** The [handleMove] callbacks of one rotate gesture.  The listener
    closes over [layer.id] and the offset ref only. *)
Fixpoint rotateMoves (lid : string) (c : Component) (degs : list number)
    (s : App.AppState) : App.AppState :=
  match degs with
  | [] => s
  | deg :: degs' =>
      rotateMoves lid c degs' (App.finalState (handleMove lid c deg s))
  end.

(** A whole rotate gesture on the layer keyed [lid]: [handleRotateStart]
    with the pointer at [startAngle], then the moves. *)
Definition rotateGesture (lid : string) (c : Component) (startAngle : number)
    (degs : list number) (s : App.AppState) : App.AppState :=
  match layerProp lid s with
  | Some layer => rotateMoves lid (handleRotateStart layer startAngle c) degs s
  | None => s
  end.

End LayerComponent.

(* ================================================================== *)
(** * services/geminiService.ts *)
(* ================================================================== *)

Module GeminiService.

Import JS.

Record Client := mkClient { apiKey : string }.

(** The part of the response the service reads: [response.text], which
    the SDK may leave undefined. *)
Record Response := mkResponse { text : option string }.

Definition FALLBACK : string := "美好的一天 ✨".

Section Service.

(** [process.env.API_KEY] *)
Variable API_KEY : option string.

(** [ai.models.generateContent({ model, contents })], awaited. *)
Variable generateContent : Client -> string -> string -> Completion Response.

(** [String.prototype.trim] *)
Variable trim : string -> string.

Definition getClient : Completion Client :=
  match API_KEY with
  | Some key =>
      if truthy (Some key) then Normal {| apiKey := key |}
      else Throw "API Key is missing"
  | None => Throw "API Key is missing"
  end.

Definition prompt (topic : option string) : string :=
  match topic with
  | Some t =>
      if truthy (Some t)
      then "请为一张关于" ++ dquote ++ t ++ dquote
           ++ "的图片生成一个简短、有创意、吸引人的中文标题或文案，不超过15个字，不要带引号。"
      else "请生成一个通用的、充满正能量或文艺气息的中文图片配文，不超过12个字，不要带引号。"
  | None => "请生成一个通用的、充满正能量或文艺气息的中文图片配文，不超过12个字，不要带引号。"
  end.

(** The body of the [try] block. *)
Definition tryBlock (topic : option string) : Completion string :=
  match getClient with
  | Throw e => Throw e
  | Normal ai =>
      match generateContent ai "gemini-2.5-flash" (prompt topic) with
      | Throw e => Throw e
      | Normal response =>
          match text response with
          | Some t => Normal (trim t)
          | None => Throw "TypeError"
          end
      end
  end.

(** [generateCaption]: how the returned promise settles, and what was
    written to the console. *)
Definition generateCaption (topic : option string)
    : Completion string * list string :=
  match tryBlock topic with
  | Normal caption => (Normal caption, [])
  | Throw error => (Normal FALLBACK, ["Gemini API Error: " ++ error])
  end.

End Service.

End GeminiService.

(* ================================================================== *)
(** * The layer store as the specification presents it *)
(* ================================================================== *)

Module LayerStore.

Import App.

(** The store operations, each bound to the handler that implements it.
    [select] is the state setter itself, as the components receive it
    ([onSelect={setSelectedLayerId}]). *)
Inductive Op :=
| addText (rev : Revision) (uuid : string)
| addSticker (rev : Revision) (uuid : string) (glyph : string)
| update (lid : string) (fields : PartialLayer)
| updateStyle (lid : string) (fields : PartialFontStyle)
| delete (lid : string)
| select (sel : option string).

Definition run (op : Op) : M unit :=
  match op with
  | addText rev uuid => invoke (addTextLayer rev uuid)
  | addSticker rev uuid glyph => invoke (addStickerLayer rev uuid glyph)
  | update lid fields => updateLayer lid fields
  | updateStyle lid fields => updateLayerStyle lid fields
  | delete lid => invoke (deleteLayer lid)
  | select sel => setSelectedLayerId sel
  end.

Definition step (op : Op) (s : AppState) : AppState :=
  finalState (run op s).

(** [style] is present exactly on TEXT layers. *)
Definition styleIffText (l : Layer) : Prop :=
  style l <> None <-> type l = TEXT.

Definition styleIffTextb (l : Layer) : bool :=
  match type l, style l with
  | TEXT, Some _ | STICKER, None => true
  | _, _ => false
  end.

Definition wellStyled (s : AppState) : Prop :=
  Forall styleIffText (layers s).

(** An [update] that leaves the kind alone and carries a style only for
    TEXT targets; every other operation qualifies. *)
Definition keepsKind (s : AppState) (op : Op) : Prop :=
  match op with
  | update lid fields =>
      p_type fields = None /\
      (p_style fields <> None ->
       forall l, In l (layers s) -> id l = lid -> type l = TEXT)
  | _ => True
  end.

End LayerStore.

(* ================================================================== *)
(** * Rotation snapping as the specification words it *)
(* ================================================================== *)

Module Spec.

Import JS.

(** The rotation normalised to [[0, 360)]: what is left after whole
    turns are taken out. *)
Definition normalize (rotation : number) : number :=
  rotation - 360 * inject_Z (Qfloor (rotation / 360)).

(** The distance between two directions on the circle, in degrees. *)
Definition angularDistance (a b : number) : number :=
  Qmin (Qabs (a - b)) (360 - Qabs (a - b)).

Definition snapAngles : list number := [0; 90; 180; 270].

(** [n] is within 5 degrees of the snap angle [t]. *)
Definition within5 (n t : number) : bool := ltb (angularDistance n t) 5.

Definition closer (n best t : number) : number :=
  if ltb (angularDistance n t) (angularDistance n best) then t else best.

(** The nearest of 0, 90, 180, 270 to [n]. *)
Definition nearest (n : number) : number :=
  fold_left (closer n) [90; 180; 270] 0.

Definition snap (rotation : number) : number :=
  let n := normalize rotation in
  if existsb (within5 n) snapAngles
  then Math_round (rotation / 360) * 360 + nearest n
  else rotation.

End Spec.

(* ================================================================== *)
(** * Export traces *)
(* ================================================================== *)

(** The options of the [toPng] calls of a trace, in call order. *)
Fixpoint captures (t : list App.Effect) : list App.ToPngOptions :=
  match t with
  | [] => []
  | App.ToPng _ opts :: t' => opts :: captures t'
  | _ :: t' => captures t'
  end.

(* ================================================================== *)
(** * Sample sessions *)
(* ================================================================== *)

Module Sample.

Import JS App.

Definition photo : LoadedImage :=
  {| result := "data:image/png;base64,iVBORw0KGgo=";
     naturalWidth := 800; naturalHeight := 600 |}.

(** A session after the first upload, with the workspace mounted. *)
Definition loaded : AppState :=
  let s := finalState
             (invoke (handleImageUpload Responsive (Some photo) false)
                     initialState) in
  {| image := image s; layers := layers s;
     selectedLayerId := selectedLayerId s; aspectRatio := aspectRatio s;
     originalSize := originalSize s; bgConfig := bgConfig s;
     isExporting := isExporting s; canvasScale := canvasScale s;
     isMobile := isMobile s; workspaceRef := true;
     fontCssRef := "@font-face{font-family:'Long Cang'}" |}.

(** The same session with a text layer [a] and a sticker [b] on top;
    [b], added last, is selected. *)
Definition composed : AppState :=
  LayerStore.step (LayerStore.addSticker Responsive "b" "✨")
    (LayerStore.step (LayerStore.addText Responsive "a") loaded).

(** [composed] with the text layer selected instead. *)
Definition composedTextSelected : AppState :=
  LayerStore.step (LayerStore.select (Some "a")) composed.

(** [composed] at another viewport zoom. *)
Definition composedZoomed (zoom : number) : AppState :=
  finalState (setCanvasScale zoom composed).

(** A rasteriser that always resolves, one whose fast attempt rejects,
    and one that always rejects. *)
Definition toPngOk (_ : AppState) (_ : ToPngOptions) : Completion string :=
  Normal "data:image/png;base64,AAAA".

Definition toPngSlowOnly (_ : AppState) (opts : ToPngOptions)
    : Completion string :=
  if cacheBust opts then Normal "data:image/png;base64,BBBB"
  else Throw "font fetch failed".

Definition toPngFails (_ : AppState) (_ : ToPngOptions) : Completion string :=
  Throw "tainted canvas".

Definition clock : Z := 1700000000000%Z.

End Sample.

(* ================================================================== *)
(** * App.tsx: derived values and the remaining controls *)
(* ================================================================== *)

Module Controls.

Import JS App.

(** [Math.min(a, b)] and [Math.min(a, b, c)] *)
Definition Math_min (a b : number) : number :=
  if Qle_bool a b then a else b.

Definition Math_min3 (a b c : number) : number :=
  Math_min (Math_min a b) c.

(** [const selectedLayer = layers.find(l => l.id === selectedLayerId)] *)
Definition selectedLayer (s : AppState) : option Layer :=
  find (fun l => strict_eq (Some (id l)) (selectedLayerId s)) (layers s).

(** The zoom buttons:
    [setCanvasScale(s => Math.max(0.2, s - 0.1))] (0.1 in the desktop
    revision) and [setCanvasScale(s => Math.min(2, s + 0.1))]. *)
Definition zoomFloor (rev : Revision) : number :=
  match rev with
  | Responsive => 0.2
  | Desktop => 0.1
  end.

Definition zoomOut (rev : Revision) : M unit :=
  fun st => setCanvasScale (Math_max (zoomFloor rev) (canvasScale st - 0.1)) st.

Definition zoomIn : M unit :=
  fun st => setCanvasScale (Math_min 2 (canvasScale st + 0.1)) st.

Inductive ZoomClick := ZoomOut | ZoomIn.

Definition zoomClick (rev : Revision) (b : ZoomClick) : M unit :=
  match b with
  | ZoomOut => zoomOut rev
  | ZoomIn => zoomIn
  end.

Fixpoint zoomClicks (rev : Revision) (bs : list ZoomClick) (s : AppState)
    : AppState :=
  match bs with
  | [] => s
  | b :: bs' => zoomClicks rev bs' (finalState (zoomClick rev b s))
  end.

(** The fit-to-screen effect of the desktop revision.  [container] is
    the bounding rectangle of [containerRef.current], [None] when the
    ref is empty. *)
Definition fitToScreen (container : option (number * number))
    (closure : AppState) : M unit :=
  match container with
  | Some (contW, contH) =>
      let pad := 60 in
      let scaleW := (contW - pad) / ar_width (aspectRatio closure) in
      let scaleH := (contH - pad) / ar_height (aspectRatio closure) in
      setCanvasScale (Math_min3 scaleW scaleH 0.8)
  | None => ret tt
  end.

(** The scale the responsive revision renders the frame with, and hands
    to every layer component:
    [isMobile ? (window.innerWidth / aspectRatio.width) * 0.85 : canvasScale]. *)
Definition viewportScale (innerWidth : number) (s : AppState) : number :=
  if isMobile s
  then innerWidth / ar_width (aspectRatio s) * 0.85
  else canvasScale s.

(** [handleKeyDown] of the desktop revision; [key] is [e.key] and
    [tagName] is [e.target.tagName]. *)
Definition handleKeyDown (key tagName : string) (closure : AppState)
    : M unit :=
  if (String.eqb key "Delete" || String.eqb key "Backspace")
     && truthy (selectedLayerId closure)
  then
    if String.eqb tagName "INPUT" || String.eqb tagName "TEXTAREA"
    then ret tt
    else match selectedLayerId closure with
         | Some sel => deleteLayer sel closure
         | None => ret tt
         end
  else ret tt.

(** The glyph size a sticker is rendered with:
    [Math.min(layer.width, layer.height) * 0.8]. *)
Definition stickerFontSize (layer : Layer) : number :=
  Math_min (width layer) (height layer) * 0.8.

(** The selection names a layer of the store, or nothing. *)
Definition selectionLive (s : AppState) : Prop :=
  match selectedLayerId s with
  | Some sel => In sel (map id (layers s))
  | None => True
  end.

(** The conditions under which a store operation keeps layer ids
    distinct and the selection live: a new layer gets an id no layer
    has, an [update] carries no [id], and [select] names a layer of the
    store. *)
Definition keepsIds (s : AppState) (op : LayerStore.Op) : Prop :=
  match op with
  | LayerStore.addText _ uuid
  | LayerStore.addSticker _ uuid _ => ~ In uuid (map id (layers s))
  | LayerStore.update _ fields => p_id fields = None
  | LayerStore.select (Some sel) => In sel (map id (layers s))
  | _ => True
  end.

(** Two optional styles that differ at most in [fontSize]. *)
Definition sameStyleButSize (a b : option FontStyle) : Prop :=
  match a, b with
  | Some sa, Some sb =>
      fontFamily sb = fontFamily sa /\ color sb = color sa /\
      backgroundColor sb = backgroundColor sa /\
      fontWeight sb = fontWeight sa /\ textAlign sb = textAlign sa /\
      padding sb = padding sa /\ borderRadius sb = borderRadius sa /\
      lineHeight sb = lineHeight sa
  | None, None => True
  | _, _ => False
  end.

End Controls.

(* ================================================================== *)
(** * The session as the program drives it *)
(* ================================================================== *)

Module Program.

Import JS App LayerComponent Controls.

(** [setIsMobile] and the responsive check
    [const checkMobile = () => setIsMobile(window.innerWidth < 768)],
    run on mount and on every window resize. *)
Definition setIsMobile (v : bool) : M unit :=
  modify (fun s => {| image := image s; layers := layers s;
    selectedLayerId := selectedLayerId s; aspectRatio := aspectRatio s;
    originalSize := originalSize s; bgConfig := bgConfig s;
    isExporting := isExporting s; canvasScale := canvasScale s;
    isMobile := v; workspaceRef := workspaceRef s;
    fontCssRef := fontCssRef s |}).

Definition checkMobile (innerWidth : number) : M unit :=
  setIsMobile (ltb innerWidth 768).

(** What the editor does to the session, one constructor per call
    site.  [updateLayer] is reached from four places only, each
    building its own object literal: the drag, resize and rotate
    callbacks and the text [onChange] (the properties panel sends the
    same [{ content }]).  [updateLayerStyle] is reached from the
    properties panel with style keys only.  A component callback runs
    for the layer its component was rendered from.  The effects React
    runs after a render ([FitToScreen] in the desktop revision,
    [CheckMobile] in the responsive one) are steps of their own, so a
    trace has them wherever they fire. *)
Inductive Action :=
| LoadImage (rev : Revision) (img : LoadedImage) (isReplace : bool)
| ClearAll (rev : Revision)
| AddText (rev : Revision) (uuid : string)
| AddSticker (rev : Revision) (uuid : string) (glyph : string)
| Resize (lid : string) (c : Component) (e : ResizeEvent)
| DragStop (lid : string) (d : number * number)
| Rotate (lid : string) (c : Component) (deg : number)
| EditContent (lid : string) (value : string)
| EditStyle (lid : string) (fields : PartialFontStyle)
| Delete (lid : string)
| KeyDown (key tagName : string)
| Select (sel : option string)
| ChooseFrame (frame : AspectRatio)
| SetBackground (bg : BackgroundConfig)
| Zoom (rev : Revision) (b : ZoomClick)
| FitToScreen (container : option (number * number))
| CheckMobile (innerWidth : number)
| Export (rev : Revision)
    (toPng : AppState -> ToPngOptions -> Completion string) (now : Z).

(** A callback of the component keyed [lid]; nothing when no such
    component is mounted. *)
Definition forLayer (lid : string) (callback : Layer -> M unit) : M unit :=
  fun s =>
    match layerProp lid s with
    | Some layer => callback layer s
    | None => ret tt s
    end.

Definition perform (a : Action) : M unit :=
  match a with
  | LoadImage rev img isReplace =>
      invoke (handleImageUpload rev (Some img) isReplace)
  | ClearAll rev => reset rev
  | AddText rev uuid => invoke (addTextLayer rev uuid)
  | AddSticker rev uuid glyph => invoke (addStickerLayer rev uuid glyph)
  | Resize lid c e => forLayer lid (fun layer => onResize layer c e)
  | DragStop lid d => forLayer lid (fun layer => onDragStop layer d)
  | Rotate lid c deg => forLayer lid (fun _ => handleMove lid c deg)
  | EditContent lid value => forLayer lid (fun layer => onChange layer value)
  | EditStyle lid fields => updateLayerStyle lid fields
  | Delete lid => invoke (deleteLayer lid)
  | KeyDown key tagName => invoke (handleKeyDown key tagName)
  | Select sel => setSelectedLayerId sel
  | ChooseFrame frame => setAspectRatio frame
  | SetBackground bg => setBgConfig bg
  | Zoom rev b => zoomClick rev b
  | FitToScreen container => invoke (fitToScreen container)
  | CheckMobile innerWidth => checkMobile innerWidth
  | Export rev toPng now => invoke (handleExport toPng now rev)
  end.

Fixpoint performAll (acts : list Action) (s : AppState) : AppState :=
  match acts with
  | [] => s
  | a :: acts' => performAll acts' (finalState (perform a s))
  end.

(** [uuidv4()] hands out an id no layer of the store carries. *)
Definition freshAt (s : AppState) (a : Action) : Prop :=
  match a with
  | AddText _ uuid | AddSticker _ uuid _ => ~ In uuid (map id (layers s))
  | _ => True
  end.

Fixpoint freshAlong (s : AppState) (acts : list Action) : Prop :=
  match acts with
  | [] => True
  | a :: acts' => freshAt s a /\ freshAlong (finalState (perform a s)) acts'
  end.

(** The invariant of the store: [style] exactly on TEXT layers, and
    pairwise distinct ids. *)
Definition storeInvariant (s : AppState) : Prop :=
  LayerStore.wellStyled s /\ NoDup (map id (layers s)).

End Program.

(* ================================================================== *)
(** * Properties *)
(* ================================================================== *)

(** ** Layer store *)

Section LayerStoreFacts.

Import JS App.

Lemma strict_eq_Some (a : option string) (b : string) :
  strict_eq a (Some b) = true <-> a = Some b.
Proof.
  destruct a as [a |]; simpl.
  - rewrite String.eqb_eq. split; congruence.
  - split; discriminate.
Qed.

(** C4. With no background image loaded, [addTextLayer] and
    [addStickerLayer] leave the whole session state as it was (so the
    layer sequence and the selection are unchanged) and their only
    effect is the blocking notice. *)
Theorem add_layer_needs_image (rev : Revision) (uuid glyph : string)
    (s : AppState) :
  image s = None ->
  let rt := invoke (addTextLayer rev uuid) s in
  let rs := invoke (addStickerLayer rev uuid glyph) s in
  (finalState rt = s /\ layers (finalState rt) = layers s /\
   selectedLayerId (finalState rt) = selectedLayerId s /\
   effects rt = [Alert "请先上传图片"] /\ completion rt = Normal tt) /\
  (finalState rs = s /\ layers (finalState rs) = layers s /\
   selectedLayerId (finalState rs) = selectedLayerId s /\
   effects rs = [Alert "请先上传图片"] /\ completion rs = Normal tt).
Proof.
  intros Himg. unfold invoke, addTextLayer, addStickerLayer.
  rewrite Himg. cbn. repeat split.
Qed.

Lemma add_layer_needs_image_witness :
  image initialState = None /\
  effects (invoke (addTextLayer Responsive "u1") initialState)
    = [Alert "请先上传图片"] /\
  finalState (invoke (addStickerLayer Desktop "u2" "✨") initialState)
    = initialState.
Proof.
  split; [reflexivity |].
  pose proof (add_layer_needs_image Responsive "u1" "✨" initialState
                eq_refl) as [Ht _].
  pose proof (add_layer_needs_image Desktop "u2" "✨" initialState
                eq_refl) as [_ Hs].
  split; [apply Ht | apply Hs].
Defined.

Lemma filter_drops_id (lid : string) (ls : list Layer) :
  ~ In lid (map id (List.filter (fun l => negb (String.eqb (id l) lid)) ls)).
Proof.
  rewrite in_map_iff. intros [l [Hid Hin]].
  apply filter_In in Hin. destruct Hin as [_ Hne].
  rewrite negb_true_iff, String.eqb_neq in Hne. contradiction.
Qed.

(** C6. [deleteLayer lid] on a store that holds [lid] removes the
    layers with that id and keeps the others in order; the selection
    becomes none when it was [lid] and is left alone otherwise. *)
Theorem deleteLayer_clears_own_selection (s : AppState) (lid : string) :
  In lid (map id (layers s)) ->
  let s' := finalState (invoke (deleteLayer lid) s) in
  ~ In lid (map id (layers s')) /\
  layers s' = List.filter (fun l => negb (String.eqb (id l) lid)) (layers s) /\
  (forall l, In l (layers s) -> id l <> lid -> In l (layers s')) /\
  (selectedLayerId s = Some lid -> selectedLayerId s' = None) /\
  (selectedLayerId s <> Some lid -> selectedLayerId s' = selectedLayerId s).
Proof.
  intros _. unfold invoke, deleteLayer.
  destruct (strict_eq (selectedLayerId s) (Some lid)) eqn:Hsel; cbn.
  - apply strict_eq_Some in Hsel.
    repeat split; auto using filter_drops_id; try congruence.
    intros l Hin Hne. apply filter_In. split; [assumption |].
    now rewrite negb_true_iff, String.eqb_neq.
  - assert (selectedLayerId s <> Some lid) as Hne.
    { intros E. apply strict_eq_Some in E. congruence. }
    repeat split; auto using filter_drops_id; try congruence.
    intros l Hin Hl. apply filter_In. split; [assumption |].
    now rewrite negb_true_iff, String.eqb_neq.
Qed.

Lemma deleteLayer_clears_own_selection_witness :
  In "a" (map id (layers Sample.composedTextSelected)) /\
  selectedLayerId
    (finalState (invoke (deleteLayer "a") Sample.composedTextSelected))
    = None /\
  In "a" (map id (layers Sample.composed)) /\
  selectedLayerId (finalState (invoke (deleteLayer "a") Sample.composed))
    = Some "b".
Proof.
  assert (In "a" (map id (layers Sample.composedTextSelected))) as H1.
  { cbn. auto. }
  assert (In "a" (map id (layers Sample.composed))) as H2.
  { cbn. auto. }
  split; [exact H1 |]. split; [| split; [exact H2 |]].
  - apply (deleteLayer_clears_own_selection _ _ H1). reflexivity.
  - rewrite (proj2 (proj2 (proj2 (proj2
      (deleteLayer_clears_own_selection _ _ H2))))).
    + reflexivity.
    + cbn. discriminate.
Defined.

(** C9. A completed image load, first upload or replacement, sets the
    background configuration to scale 1, x 0, y 0, filter none, and
    leaves the layer sequence and the selection as they were. *)
Theorem image_load_resets_background (rev : Revision) (img : LoadedImage)
    (isReplace : bool) (closure s : AppState) :
  let s' := finalState (handleImageUpload rev (Some img) isReplace closure s) in
  bgConfig s' = INITIAL_BG_CONFIG /\
  bgConfig s' =
    {| bg_scale := 1; bg_x := 0; bg_y := 0; bg_filter := "none" |} /\
  image s' = Some (result img) /\
  layers s' = layers s /\
  selectedLayerId s' = selectedLayerId s.
Proof.
  unfold handleImageUpload.
  destruct rev;
    destruct (truthy (image closure)), isReplace,
      (String.eqb (ar_name (aspectRatio closure)) "original");
    cbn; repeat split.
Qed.

End LayerStoreFacts.

(** ** Export pipeline *)

Section ExportFacts.

Import JS App.

Variable toPng : AppState -> ToPngOptions -> Completion string.
Variable Date_now : Z.

(** Runs [handleExport] symbolically: the guard, the two possible
    [toPng] calls, the truthiness of the data URL and the revision. *)
Ltac run_export s :=
  unfold invoke, handleExport, bind, get, try_finally, try_catch,
    await_toPng, emit, ret, throw, setIsExporting, setSelectedLayerId,
    modify;
  destruct (workspaceRef s) eqn:Hws; cbn [negb orb];
  [ destruct (truthy (image s)) eqn:Himg; cbn [negb] | ];
  repeat match goal with
         | |- context [toPng ?d ?o] =>
             let E := fresh "Hpng" in
             let url := fresh "url" in
             destruct (toPng d o) as [url |] eqn:E;
             [ destruct (truthy (Some url)) eqn:? | ]
         | |- context [match ?r with Responsive => _ | Desktop => _ end] =>
             is_var r; destruct r
         end;
  cbn.

Ltac in_trace :=
  repeat match goal with
         | H : In _ _ |- _ => cbn in H
         | H : _ \/ _ |- _ => destruct H
         | H : False |- _ => contradiction
         | H : ToPng _ _ = ToPng _ _ |- _ => inversion H; subst; clear H
         | H : _ = ToPng _ _ |- _ => discriminate H
         end.

(** What every run of [handleExport] keeps: each [toPng] call sees a
    state without selection, and the state afterwards has the selection,
    layers, image and background of the state before. *)
Lemma export_selection_facts (rev : Revision) (s : AppState) :
  let r := invoke (handleExport toPng Date_now rev) s in
  (forall dom opts,
     In (ToPng dom opts) (effects r) -> selectedLayerId dom = None) /\
  selectedLayerId (finalState r) = selectedLayerId s /\
  layers (finalState r) = layers s /\
  image (finalState r) = image s /\
  bgConfig (finalState r) = bgConfig s /\
  completion r = Normal tt.
Proof.
  run_export s; (split; [intros dom opts Hin; in_trace; reflexivity |]);
    repeat split.
Qed.

(** Past the guard the trace opens with the 10 ms wait followed by the
    first [toPng] call, made on the state [duringExport s]. *)
Lemma export_starts_with_capture (rev : Revision) (s : AppState) :
  workspaceRef s = true -> truthy (image s) = true ->
  exists rest,
    effects (invoke (handleExport toPng Date_now rev) s)
    = SetTimeout 10
      :: ToPng (duringExport s)
           {| common := commonConfig s (duringExport s);
              cacheBust := false |}
      :: rest.
Proof.
  intros Hw Hi.
  assert (negb (workspaceRef s) || negb (truthy (image s)) = false) as Hguard
    by (rewrite Hw, Hi; reflexivity).
  unfold invoke, handleExport, duringExport, bind, get, try_finally,
    try_catch, await_toPng, emit, ret, throw, setIsExporting,
    setSelectedLayerId, modify, finalState, effects.
  cbn -[truthy string_of_Z append]. rewrite Hguard.
  cbn -[truthy string_of_Z append].
  repeat match goal with
         | |- context [match toPng ?d ?o with _ => _ end] =>
             destruct (toPng d o); cbn -[truthy string_of_Z append]
         | |- context [if truthy ?v then _ else _] =>
             destruct (truthy v); cbn -[truthy string_of_Z append]
         | |- context [match ?r with Responsive => _ | Desktop => _ end] =>
             is_var r; destruct r; cbn -[truthy string_of_Z append]
         end;
    eexists; reflexivity.
Qed.

(** C7. [handleExport] never throws.  With an image loaded and the
    workspace mounted it does capture: after clearing the selection it
    calls [toPng] on a state in which nothing is selected and whose
    layers are those of the session.  Every [toPng] call it makes sees
    such a state; and whatever the two attempts do, the selection
    afterwards is the one the session had when the export was invoked,
    with the layers untouched. *)
Theorem export_clears_and_restores_selection (rev : Revision) (s : AppState) :
  let r := invoke (handleExport toPng Date_now rev) s in
  let dom := duringExport s in
  (forall dom' opts,
     In (ToPng dom' opts) (effects r) -> selectedLayerId dom' = None) /\
  selectedLayerId (finalState r) = selectedLayerId s /\
  layers (finalState r) = layers s /\
  image (finalState r) = image s /\
  bgConfig (finalState r) = bgConfig s /\
  completion r = Normal tt /\
  selectedLayerId dom = None /\ layers dom = layers s /\
  (workspaceRef s = true -> truthy (image s) = true ->
   exists rest,
     effects r
     = SetTimeout 10
       :: ToPng dom {| common := commonConfig s dom; cacheBust := false |}
       :: rest).
Proof.
  cbv zeta.
  destruct (export_selection_facts rev s) as (H1 & H2 & H3 & H4 & H5 & H6).
  repeat (split; [assumption |]).
  split; [reflexivity |]. split; [reflexivity |].
  apply export_starts_with_capture.
Qed.

(** C8. An export makes at most two [toPng] calls.  Once past its
    guard it makes a first call that does not bust the cache and embeds
    the cached font CSS; when that call resolves there is no other
    call; when it rejects there is exactly one more, with the same
    configuration and cache busting on, and none after it. *)
Theorem export_retries_once (rev : Revision) (s : AppState) :
  let r := invoke (handleExport toPng Date_now rev) s in
  let dom := duringExport s in
  let fast := {| common := commonConfig s dom; cacheBust := false |} in
  let slow := {| common := commonConfig s dom; cacheBust := true |} in
  (List.length (captures (effects r)) <= 2)%nat /\
  (forall d opts, In (ToPng d opts) (effects r) -> d = dom) /\
  fontEmbedCSS (common fast) = fontCssRef s /\
  (workspaceRef s = false \/ truthy (image s) = false ->
   captures (effects r) = []) /\
  (workspaceRef s = true -> truthy (image s) = true ->
   (forall url, toPng dom fast = Normal url ->
      captures (effects r) = [fast]) /\
   (forall e, toPng dom fast = Throw e ->
      captures (effects r) = [fast; slow])).
Proof.
  cbv zeta. unfold duringExport.
  run_export s;
    repeat match goal with
           | |- _ /\ _ => split
           | |- forall _, _ => intro
           | |- _ -> _ => intro
           end;
    in_trace; auto; try lia; try congruence; try discriminate;
    try (cbn in *; congruence);
    try match goal with
        | H : _ \/ _ |- _ => destruct H; discriminate
        end.
Qed.

(** C3. Every [toPng] call of an export is configured from the frame
    alone: pixel ratio 1, width and height (element and canvas) those of
    the active frame, transform [none]; so the raster it asks for is
    frame-sized, and two exports of sessions with the same frame ask for
    the same size whatever their viewport zoom. *)
Theorem export_size_is_frame_size (rev rev' : Revision) (s s' : AppState)
    (dom dom' : AppState) (opts opts' : ToPngOptions) :
  In (ToPng dom opts) (effects (invoke (handleExport toPng Date_now rev) s)) ->
  In (ToPng dom' opts')
     (effects (invoke (handleExport toPng Date_now rev') s')) ->
  aspectRatio s = aspectRatio s' ->
  (pixelRatio (common opts) = 1 /\
   cfg_width (common opts) = ar_width (aspectRatio s) /\
   cfg_height (common opts) = ar_height (aspectRatio s) /\
   canvasWidth (common opts) = ar_width (aspectRatio s) /\
   canvasHeight (common opts) = ar_height (aspectRatio s) /\
   style_transform (common opts) = "none") /\
  (fst (outputSize opts) == ar_width (aspectRatio s) /\
   snd (outputSize opts) == ar_height (aspectRatio s)) /\
  outputSize opts = outputSize opts'.
Proof.
  intros Hin Hin' Hframe.
  assert (forall v t d o,
            In (ToPng d o) (effects (invoke (handleExport toPng Date_now v) t)) ->
            common o = commonConfig t (duringExport t)) as Hcfg.
  { clear. intros v t d o. unfold duringExport.
    run_export t; intros Hin; in_trace; reflexivity. }
  apply Hcfg in Hin. apply Hcfg in Hin'.
  unfold outputSize. rewrite Hin, Hin'. cbn. rewrite Hframe.
  repeat split; ring.
Qed.

End ExportFacts.

Section ExportRuns.

Import JS App.

Lemma export_clears_and_restores_selection_witness :
  let s := Sample.composed in
  let dom := duringExport s in
  selectedLayerId s = Some "b" /\
  workspaceRef s = true /\ truthy (image s) = true /\
  selectedLayerId dom = None /\
  (exists rest,
     effects (invoke (handleExport Sample.toPngFails Sample.clock Responsive)
                s)
     = SetTimeout 10
       :: ToPng dom {| common := commonConfig s dom; cacheBust := false |}
       :: rest) /\
  selectedLayerId
    (finalState (invoke (handleExport Sample.toPngOk Sample.clock Responsive)
                        s)) = Some "b" /\
  selectedLayerId
    (finalState (invoke (handleExport Sample.toPngSlowOnly Sample.clock Desktop)
                        s)) = Some "b" /\
  selectedLayerId
    (finalState (invoke (handleExport Sample.toPngFails Sample.clock Responsive)
                        s)) = Some "b".
Proof.
  cbv zeta.
  assert (selectedLayerId Sample.composed = Some "b") as Hsel by reflexivity.
  assert (workspaceRef Sample.composed = true) as Hw by reflexivity.
  assert (truthy (image Sample.composed) = true) as Hi by reflexivity.
  split; [exact Hsel |]. split; [exact Hw |]. split; [exact Hi |].
  pose proof (export_clears_and_restores_selection
                Sample.toPngOk Sample.clock Responsive Sample.composed)
    as (_ & Hok & _).
  pose proof (export_clears_and_restores_selection
                Sample.toPngSlowOnly Sample.clock Desktop Sample.composed)
    as (_ & Hslow & _).
  pose proof (export_clears_and_restores_selection
                Sample.toPngFails Sample.clock Responsive Sample.composed)
    as (_ & Hfail & _ & _ & _ & _ & Hnone & _ & Hcap).
  split; [exact Hnone |]. split; [exact (Hcap Hw Hi) |].
  rewrite <- Hsel at 1 2 3.
  split; [exact Hok |]. split; [exact Hslow | exact Hfail].
Defined.

Lemma export_retries_once_witness :
  let s := Sample.composed in
  let cfg := commonConfig s (duringExport s) in
  captures (effects (invoke (handleExport Sample.toPngOk Sample.clock
                               Responsive) s))
    = [ {| common := cfg; cacheBust := false |} ] /\
  captures (effects (invoke (handleExport Sample.toPngSlowOnly Sample.clock
                               Desktop) s))
    = [ {| common := cfg; cacheBust := false |};
        {| common := cfg; cacheBust := true |} ] /\
  captures (effects (invoke (handleExport Sample.toPngFails Sample.clock
                               Responsive) s))
    = [ {| common := cfg; cacheBust := false |};
        {| common := cfg; cacheBust := true |} ].
Proof.
  cbv zeta. split; [| split].
  - apply (proj1 (proj2 (proj2 (proj2 (proj2
      (export_retries_once Sample.toPngOk Sample.clock Responsive
         Sample.composed)))) eq_refl eq_refl)
           "data:image/png;base64,AAAA").
    reflexivity.
  - apply (proj2 (proj2 (proj2 (proj2 (proj2
      (export_retries_once Sample.toPngSlowOnly Sample.clock Desktop
         Sample.composed)))) eq_refl eq_refl)
           "font fetch failed").
    reflexivity.
  - apply (proj2 (proj2 (proj2 (proj2 (proj2
      (export_retries_once Sample.toPngFails Sample.clock Responsive
         Sample.composed)))) eq_refl eq_refl)
           "tainted canvas").
    reflexivity.
Defined.

Lemma export_size_is_frame_size_witness :
  let a := Sample.composedZoomed 0.2 in
  let b := Sample.composedZoomed 2 in
  let oa := {| common := commonConfig a (duringExport a);
               cacheBust := false |} in
  let ob := {| common := commonConfig b (duringExport b);
               cacheBust := false |} in
  canvasScale a = 0.2 /\ canvasScale b = 2 /\
  outputSize oa = outputSize ob /\
  fst (outputSize oa) == 800 /\ snd (outputSize oa) == 600.
Proof.
  cbv zeta.
  set (a := Sample.composedZoomed 0.2). set (b := Sample.composedZoomed 2).
  set (oa := {| common := commonConfig a (duringExport a);
                cacheBust := false |}).
  set (ob := {| common := commonConfig b (duringExport b);
                cacheBust := false |}).
  assert (In (ToPng (duringExport a) oa)
             (effects (invoke (handleExport Sample.toPngOk Sample.clock
                                 Responsive) a))) as Ha.
  { right. left. reflexivity. }
  assert (In (ToPng (duringExport b) ob)
             (effects (invoke (handleExport Sample.toPngOk Sample.clock
                                 Desktop) b))) as Hb.
  { right. left. reflexivity. }
  destruct (export_size_is_frame_size Sample.toPngOk Sample.clock
              Responsive Desktop a b _ _ oa ob Ha Hb eq_refl)
    as [_ [[Hw Hh] Heq]].
  repeat split; try reflexivity; assumption.
Defined.

End ExportRuns.

(** ** Caption service *)

Section CaptionFacts.

Import JS GeminiService.

Variable API_KEY : option string.
Variable generateContent : Client -> string -> string -> Completion Response.
Variable trim : string -> string.

(** C10. Whatever the topic, [generateCaption] completes normally: it
    never throws.  When the credential is missing, when the API call
    rejects, or on any other failure inside the [try] block, the value
    is the fixed fallback caption. *)
Theorem generateCaption_never_throws (topic : option string) :
  let settled := fst (generateCaption API_KEY generateContent trim topic) in
  (exists caption, settled = Normal caption) /\
  (forall e, settled <> Throw e) /\
  (API_KEY = None -> settled = Normal FALLBACK) /\
  (forall ai e,
     getClient API_KEY = Normal ai ->
     generateContent ai "gemini-2.5-flash" (prompt topic) = Throw e ->
     settled = Normal FALLBACK) /\
  (forall e,
     tryBlock API_KEY generateContent trim topic = Throw e ->
     settled = Normal FALLBACK).
Proof.
  cbv zeta. unfold generateCaption.
  destruct (tryBlock API_KEY generateContent trim topic) as [c | e0] eqn:Htry;
    cbn [fst].
  - split; [now exists c |]. split; [discriminate |].
    unfold tryBlock in Htry.
    split; [| split].
    + intros Hkey. rewrite Hkey in Htry. discriminate.
    + intros ai e Hc Hg. rewrite Hc, Hg in Htry. discriminate.
    + discriminate.
  - split; [now exists FALLBACK |]. split; [discriminate |]. auto.
Qed.

End CaptionFacts.

Lemma generateCaption_never_throws_witness :
  fst (GeminiService.generateCaption None
         (fun _ _ _ => JS.Throw "network error") (fun t => t) (Some "海边"))
  = JS.Normal GeminiService.FALLBACK.
Proof.
  apply (generateCaption_never_throws None
           (fun _ _ _ => JS.Throw "network error") (fun t => t) (Some "海边")).
  reflexivity.
Defined.

(** ** The style invariant of the layer store *)

Section StyleInvariant.

Import JS App LayerStore.

Lemma styleIffTextb_spec (l : Layer) :
  styleIffTextb l = true <-> styleIffText l.
Proof.
  unfold styleIffTextb, styleIffText.
  destruct (type l), (style l); split; intros H; try reflexivity;
    try discriminate; try (split; congruence).
  - destruct H as [_ H]. now specialize (H eq_refl).
  - destruct H as [H _]. assert (STICKER = TEXT) by (apply H; discriminate).
    discriminate.
Qed.

Lemma wellStyled_initialState : wellStyled initialState.
Proof. constructor. Qed.

Lemma spreadLayer_keeps_invariant (l : Layer) (fields : PartialLayer) :
  p_type fields = None ->
  (p_style fields <> None -> type l = TEXT) ->
  styleIffText l -> styleIffText (spreadLayer l fields).
Proof.
  unfold styleIffText, spreadLayer. intros Hty Hst Hl. cbn.
  rewrite Hty. cbn.
  destruct (p_style fields) as [st |].
  - split; [intros _; apply Hst; discriminate | discriminate].
  - exact Hl.
Qed.

(** One store operation keeps [style] present exactly on the TEXT
    layers when it meets [keepsKind]: an [update] that carries no
    [type] and carries a [style] only when the layers it targets are
    TEXT.  The other five operations need no condition. *)
Lemma step_keeps_wellStyled (s : AppState) (op : Op) :
  wellStyled s -> keepsKind s op -> wellStyled (step op s).
Proof.
  unfold wellStyled, step. intros Hs Hop.
  destruct op as [rev uuid | rev uuid glyph | lid fields | lid fields
                 | lid | sel]; cbn [run].
  - unfold invoke, addTextLayer.
    destruct (truthy (image s)); cbn; [| exact Hs].
    apply Forall_app. split; [exact Hs |].
    constructor; [| constructor].
    unfold styleIffText. cbn. split; [reflexivity | discriminate].
  - unfold invoke, addStickerLayer.
    destruct (truthy (image s)); cbn; [| exact Hs].
    apply Forall_app. split; [exact Hs |].
    constructor; [| constructor].
    unfold styleIffText. cbn. split; [congruence | discriminate].
  - destruct Hop as [Hty Hst]. cbn.
    rewrite Forall_forall in *. intros l' Hin.
    apply in_map_iff in Hin. destruct Hin as [l [Hl Hin]]. subst l'.
    destruct (String.eqb (id l) lid) eqn:Hid; [| now apply Hs].
    apply String.eqb_eq in Hid.
    apply spreadLayer_keeps_invariant; auto.
  - cbn. rewrite Forall_forall in *. intros l' Hin.
    apply in_map_iff in Hin. destruct Hin as [l [Hl Hin]]. subst l'.
    destruct (String.eqb (id l) lid && LayerType_eqb (type l) TEXT) eqn:Hc;
      [| now apply Hs].
    apply andb_true_iff in Hc. destruct Hc as [_ Hty].
    unfold styleIffText. cbn.
    destruct (type l); [| discriminate]. split; [reflexivity | discriminate].
  - unfold invoke, deleteLayer.
    assert (Forall styleIffText
              (List.filter (fun l => negb (String.eqb (id l) lid)) (layers s)))
      as Hf.
    { rewrite Forall_forall in *. intros l Hin.
      apply filter_In in Hin. now apply Hs. }
    destruct (strict_eq (selectedLayerId s) (Some lid)); cbn; exact Hf.
  - cbn. exact Hs.
Qed.

End StyleInvariant.

Lemma wellStyled_composed : LayerStore.wellStyled Sample.composed.
Proof.
  unfold LayerStore.wellStyled. cbn.
  repeat (apply Forall_cons; [apply styleIffTextb_spec; reflexivity |]).
  apply Forall_nil.
Qed.

(** [updateLayer] does not guard the invariant by itself: handing a
    sticker a style, or turning a styled text layer into a sticker, is
    a well-typed [Partial<Layer>] and [updateLayer] merges it as is.
    It is the call sites that never send such fields. *)
Remark updateLayer_merges_any_fields :
  LayerStore.wellStyled Sample.composed /\
  ~ LayerStore.wellStyled
      (LayerStore.step
         (LayerStore.update "b"
            (mkPartialLayer None None None None None None None None
               (Some App.INITIAL_TEXT_STYLE)))
         Sample.composed) /\
  ~ LayerStore.wellStyled
      (LayerStore.step
         (LayerStore.update "a"
            (mkPartialLayer None (Some STICKER) None None None None None None
               None))
         Sample.composed).
Proof.
  split; [exact wellStyled_composed |].
  split; intros H.
  - inversion H as [| ? ? _ Hrest]; subst.
    inversion Hrest as [| ? ? Hb _]; subst.
    destruct Hb as [Hb _]. cbn in Hb.
    assert (STICKER = TEXT) by (apply Hb; discriminate). discriminate.
  - inversion H as [| ? ? Ha _]; subst.
    destruct Ha as [Ha _]. cbn in Ha.
    assert (STICKER = TEXT) by (apply Ha; discriminate). discriminate.
Qed.

(** ** Gestures of the layer component *)

Section GestureFacts.

Import JS App LayerComponent.

Lemma layerProp_id (lid : string) (s : AppState) (layer : Layer) :
  layerProp lid s = Some layer -> id layer = lid.
Proof.
  unfold layerProp. intros H. apply find_some in H.
  now apply String.eqb_eq.
Qed.

(** After [updateLayer lid fields], the component keyed [lid] is handed
    its previous layer merged with [fields]. *)
Lemma layerProp_updateLayer (lid : string) (fields : PartialLayer)
    (s : AppState) (layer : Layer) :
  p_id fields = None ->
  layerProp lid s = Some layer ->
  layerProp lid (finalState (updateLayer lid fields s))
    = Some (spreadLayer layer fields).
Proof.
  unfold layerProp. cbn. intros Hid.
  induction (layers s) as [| l ls IH]; cbn; [discriminate |].
  destruct (String.eqb (id l) lid) eqn:E.
  - intros H. injection H as <-.
    cbn. rewrite Hid. cbn. now rewrite E.
  - rewrite E. exact IH.
Qed.

Lemma corner_or_edge (d : Direction) :
  (includes corners d = true /\ In d corners /\ ~ In d edges) \/
  (includes corners d = false /\ In d edges /\ ~ In d corners).
Proof.
  destruct d; cbn;
    ((left; repeat split; [tauto | intros H; intuition discriminate])
     || (right; repeat split; [tauto | intros H; intuition discriminate])).
Qed.

(** One [onResize] callback on a styled TEXT layer once the start data
    is in place. *)
Lemma onResize_text (lid : string) (c : Component) (start : ResizeStartData)
    (e : ResizeEvent) (s : AppState) (layer : Layer) (st : FontStyle) :
  layerProp lid s = Some layer ->
  type layer = TEXT -> style layer = Some st ->
  resizeStartData c = Some start ->
  exists layer' st',
    layerProp lid (finalState (onResize layer c e s)) = Some layer' /\
    type layer' = TEXT /\ style layer' = Some st' /\
    height layer' = inject_Z (ref_height e) /\
    (includes corners (direction e) = true ->
     fontSize st' =
       Math_max 12 (rs_fontSize start
                    * (inject_Z (ref_height e) / rs_height start))) /\
    (includes corners (direction e) = false -> st' = st).
Proof.
  intros Hprop Hty Hst Hstart.
  pose proof (layerProp_id _ _ _ Hprop) as Hid.
  unfold onResize. rewrite Hid.
  exists (spreadLayer layer (resizeUpdates layer c e)).
  rewrite (layerProp_updateLayer lid (resizeUpdates layer c e) s layer
             eq_refl Hprop).
  unfold resizeUpdates. rewrite Hty, Hst, Hstart. fold corners.
  destruct (includes corners (direction e)); cbn; rewrite ?Hty, ?Hst;
    eexists; repeat split; try reflexivity; try discriminate.
Qed.

Lemma resizeMoves_text (lid : string) (c : Component)
    (start : ResizeStartData) (d : Direction) (e : ResizeEvent) :
  resizeStartData c = Some start ->
  forall (es : list ResizeEvent) (s : AppState) (layer : Layer)
         (st : FontStyle),
    layerProp lid s = Some layer ->
    type layer = TEXT -> style layer = Some st ->
    Forall (fun ev => direction ev = d) (es ++ [e]) ->
    exists layer' st',
      layerProp lid (resizeMoves lid c (es ++ [e]) s) = Some layer' /\
      style layer' = Some st' /\
      height layer' = inject_Z (ref_height e) /\
      (In d corners ->
       fontSize st' =
         Math_max 12 (rs_fontSize start
                      * (inject_Z (ref_height e) / rs_height start))) /\
      (In d edges -> fontSize st' = fontSize st).
Proof.
  intros Hstart es.
  induction es as [| e0 es IH]; intros s layer st Hprop Hty Hst Hdir.
  - cbn [app resizeMoves]. rewrite Hprop.
    destruct (onResize_text lid c start e s layer st Hprop Hty Hst Hstart)
      as (layer' & st' & Hp & _ & Hs' & Hh & Hcor & Hedge).
    exists layer', st'. repeat split; auto.
    + intros Hin. apply Hcor.
      inversion Hdir as [| ? ? He _]; subst.
      destruct (corner_or_edge (direction e)) as [[H _] | [_ [_ H]]];
        [assumption | contradiction].
    + intros Hin. rewrite Hedge; [reflexivity |].
      inversion Hdir as [| ? ? He _]; subst.
      destruct (corner_or_edge (direction e)) as [[_ [_ H]] | [H _]];
        [contradiction | assumption].
  - cbn [app resizeMoves]. rewrite Hprop.
    destruct (onResize_text lid c start e0 s layer st Hprop Hty Hst Hstart)
      as (layer1 & st1 & Hp1 & Hty1 & Hs1 & _ & _ & Hedge1).
    inversion Hdir as [| ? ? He0 Hrest]; subst.
    destruct (IH _ layer1 st1 Hp1 Hty1 Hs1 Hrest)
      as (layer' & st' & Hp & Hs' & Hh & Hcor & Hedge).
    exists layer', st'. repeat split; auto.
    intros Hin. rewrite (Hedge Hin).
    rewrite Hedge1; [reflexivity |].
    destruct (corner_or_edge (direction e0)) as [[_ [_ H]] | [H _]];
      [contradiction | assumption].
Qed.

(** With distinct layer ids, the component keyed [lid] is the only
    one [updateLayer lid] reaches. *)
Lemma layerProp_unique (lid : string) (s : AppState) (layer l : Layer) :
  NoDup (map id (layers s)) ->
  layerProp lid s = Some layer ->
  In l (layers s) -> id l = lid -> l = layer.
Proof.
  unfold layerProp.
  induction (layers s) as [| a ls IH]; cbn; [contradiction |].
  intros Hnd Hfind Hin Hid. inversion Hnd as [| ? ? Hnotin Hnd']; subst.
  destruct (String.eqb (id a) (id l)) eqn:E.
  - injection Hfind as <-. apply String.eqb_eq in E.
    destruct Hin as [-> | Hin]; [reflexivity |].
    exfalso. apply Hnotin. rewrite E. now apply in_map.
  - destruct Hin as [-> | Hin].
    + rewrite String.eqb_refl in E. discriminate.
    + now apply IH.
Qed.

(** What the component sends to [onUpdate] meets the condition under
    which [update] keeps the style invariant: no callback sends a
    [type], and [onResize] sends a [style] only for a TEXT layer. *)
Lemma component_updates_keep_kind (lid : string) (c : Component)
    (e : ResizeEvent) (d : number * number) (value : string) (deg : number)
    (s : AppState) (layer : Layer) :
  NoDup (map id (layers s)) ->
  layerProp lid s = Some layer ->
  LayerStore.keepsKind s
    (LayerStore.update (id layer) (resizeUpdates layer c e)) /\
  LayerStore.keepsKind s
    (LayerStore.update (id layer)
       (mkPartialLayer None None (Some (fst d)) (Some (snd d)) None None
          None None None)) /\
  LayerStore.keepsKind s
    (LayerStore.update (id layer)
       (mkPartialLayer None None None None None None None (Some value)
          None)) /\
  LayerStore.keepsKind s
    (LayerStore.update lid
       (mkPartialLayer None None None None None None
          (Some (snap (deg - rotateOffset c))) None None)).
Proof.
  intros Hnd Hprop. pose proof (layerProp_id _ _ _ Hprop) as Hid.
  repeat split; try (cbn; intros H; now contradiction H).
  cbn [p_style resizeUpdates]. intros Hst l Hin Hl.
  rewrite Hid in Hl.
  rewrite (layerProp_unique lid s layer l Hnd Hprop Hin Hl).
  destruct (type layer); [reflexivity |]. now contradiction Hst.
Qed.

(** C1. A resize gesture on a styled TEXT layer, all of whose callbacks
    come from one handle and the last of which reports height
    [newHeight]: from a corner handle the font size ends as
    [max(12, startFontSize * (newHeight / startHeight))], the start
    values being those of the layer when the gesture began, however
    many callbacks came in between; from an edge handle the font size
    ends as it began. *)
Theorem text_resize_font_size (lid : string) (c : Component) (d : Direction)
    (es : list ResizeEvent) (e : ResizeEvent) (s : AppState)
    (layer : Layer) (st : FontStyle) :
  layerProp lid s = Some layer ->
  type layer = TEXT -> style layer = Some st ->
  Forall (fun ev => direction ev = d) (es ++ [e]) ->
  let startHeight := height layer in
  let startFontSize := fontSize st in
  let newHeight := inject_Z (ref_height e) in
  exists layer' st',
    layerProp lid (resizeGesture lid c (es ++ [e]) s) = Some layer' /\
    style layer' = Some st' /\
    height layer' = newHeight /\
    (In d [TopLeft; TopRight; BottomLeft; BottomRight] ->
     fontSize st' = Math_max 12 (startFontSize * (newHeight / startHeight))) /\
    (In d [Top; Bottom; Left; Right] -> fontSize st' = startFontSize).
Proof.
  intros Hprop Hty Hst Hdir. cbv zeta.
  unfold resizeGesture. rewrite Hprop.
  assert (resizeStartData (onResizeStart layer c)
          = Some {| rs_width := width layer; rs_height := height layer;
                    rs_fontSize := fontSize st |}) as Hstart.
  { unfold onResizeStart. now rewrite Hty, Hst. }
  exact (resizeMoves_text lid (onResizeStart layer c) _ d e Hstart
           es s layer st Hprop Hty Hst Hdir).
Qed.

End GestureFacts.

Lemma text_resize_font_size_witness :
  let drag d :=
    [ LayerComponent.mkResizeEvent d 470 180 (340, 225);
      LayerComponent.mkResizeEvent d 560 225 (340, 225) ] in
  (exists layer' st',
     LayerComponent.layerProp "a"
       (LayerComponent.resizeGesture "a" LayerComponent.mount
          (drag LayerComponent.BottomRight) Sample.composed) = Some layer' /\
     style layer' = Some st' /\ fontSize st' == 63) /\
  (exists layer' st',
     LayerComponent.layerProp "a"
       (LayerComponent.resizeGesture "a" LayerComponent.mount
          (drag LayerComponent.Bottom) Sample.composed) = Some layer' /\
     style layer' = Some st' /\ fontSize st' == 42).
Proof.
  cbv zeta. split.
  - destruct (text_resize_font_size "a" LayerComponent.mount
                LayerComponent.BottomRight
                [LayerComponent.mkResizeEvent LayerComponent.BottomRight
                   470 180 (340, 225)]
                (LayerComponent.mkResizeEvent LayerComponent.BottomRight
                   560 225 (340, 225))
                Sample.composed _ _ eq_refl eq_refl eq_refl)
      as (layer' & st' & Hp & Hs & _ & Hcorner & _).
    { repeat constructor. }
    exists layer', st'. split; [exact Hp |]. split; [exact Hs |].
    rewrite Hcorner by (cbn; auto). vm_compute. reflexivity.
  - destruct (text_resize_font_size "a" LayerComponent.mount
                LayerComponent.Bottom
                [LayerComponent.mkResizeEvent LayerComponent.Bottom
                   470 180 (340, 225)]
                (LayerComponent.mkResizeEvent LayerComponent.Bottom
                   560 225 (340, 225))
                Sample.composed _ _ eq_refl eq_refl eq_refl)
      as (layer' & st' & Hp & Hs & _ & _ & Hedge).
    { repeat constructor. }
    exists layer', st'. split; [exact Hp |]. split; [exact Hs |].
    rewrite Hedge by (cbn; auto). vm_compute. reflexivity.
Defined.

(** ** Rotation snapping *)

Section RotationFacts.

Import JS App LayerComponent.

Lemma ltb_lt (a b : number) : ltb a b = true <-> a < b.
Proof.
  unfold ltb. rewrite negb_true_iff. split.
  - intros H. apply Qnot_le_lt. intros Hle.
    apply Qle_bool_iff in Hle. congruence.
  - intros H. destruct (Qle_bool b a) eqn:E; [| reflexivity].
    apply Qle_bool_iff in E. lra.
Qed.

Lemma ltb_ge (a b : number) : ltb a b = false <-> b <= a.
Proof. unfold ltb. rewrite negb_false_iff. apply Qle_bool_iff. Qed.

Lemma floor_bounds (v : Q) :
  inject_Z (Qfloor v) <= v /\ v < inject_Z (Qfloor v) + 1.
Proof.
  split; [apply Qfloor_le |].
  pose proof (Qlt_floor v) as H. now rewrite inject_Z_plus in H.
Qed.

Lemma ceiling_bounds (v : Q) :
  inject_Z (Qceiling v) - 1 < v /\ v <= inject_Z (Qceiling v).
Proof.
  split; [| apply Qle_ceiling].
  pose proof (Qceiling_lt v) as H. unfold Z.sub in H.
  rewrite inject_Z_plus, inject_Z_opp in H. exact H.
Qed.

Lemma Qfloor_unique (v : Q) (k : Z) :
  inject_Z k <= v -> v < inject_Z k + 1 -> Qfloor v = k.
Proof.
  intros Hlo Hhi. destruct (floor_bounds v) as [H1 H2].
  assert (inject_Z k < inject_Z (Qfloor v + 1)) as A
    by (rewrite inject_Z_plus; change (inject_Z 1) with 1; lra).
  assert (inject_Z (Qfloor v) < inject_Z (k + 1)) as B
    by (rewrite inject_Z_plus; change (inject_Z 1) with 1; lra).
  rewrite <- Zlt_Qlt in A, B. lia.
Qed.

Lemma trunc_nonneg (v : Q) : 0 <= v -> trunc v = Qfloor v.
Proof. intros H. unfold trunc. apply Qle_bool_iff in H. now rewrite H. Qed.

Lemma trunc_neg (v : Q) : v < 0 -> trunc v = Qceiling v.
Proof.
  intros H. unfold trunc. destruct (Qle_bool 0 v) eqn:E; [| reflexivity].
  apply Qle_bool_iff in E. lra.
Qed.

Lemma turns (r : Q) : r == 360 * (r / 360).
Proof. field. Qed.

Lemma rem_360 (a : Q) : rem a 360 == a - 360 * inject_Z (trunc (a / 360)).
Proof. reflexivity. Qed.

Lemma normalize_range (r : Q) :
  0 <= Spec.normalize r /\ Spec.normalize r < 360.
Proof.
  unfold Spec.normalize. pose proof (turns r) as E.
  destruct (floor_bounds (r / 360)). split; lra.
Qed.

(** The double remainder of [handleMove] is the rotation with the whole
    turns taken out, also for negative rotations. *)
Lemma rem_rem_normalize (r : Q) :
  rem (rem r 360 + 360) 360 == Spec.normalize r.
Proof.
  unfold Spec.normalize.
  rewrite (rem_360 (rem r 360 + 360)).
  pose proof (rem_360 r) as R1.
  set (m := rem r 360) in *. clearbody m.
  pose proof (turns r) as E.
  pose proof (turns (m + 360)) as Ea.
  set (p := (m + 360) / 360) in *. clearbody p.
  set (q := r / 360) in *. clearbody q.
  destruct (floor_bounds q) as [F1 F2].
  destruct (Qlt_le_dec q 0) as [Hneg | Hpos].
  - rewrite (trunc_neg q Hneg) in R1.
    destruct (ceiling_bounds q) as [C2 C1].
    rewrite (trunc_nonneg p) by lra.
    destruct (Qeq_dec q (inject_Z (Qceiling q))) as [Hint | Hnint].
    + (* a whole number of turns *)
      assert (Qfloor q = Qceiling q) as Hf by (apply Qfloor_unique; lra).
      assert (Qfloor p = 1%Z) as Hp
        by (apply Qfloor_unique; change (inject_Z 1) with 1; lra).
      rewrite Hp, Hf. change (inject_Z 1) with 1. lra.
    + assert (q < inject_Z (Qceiling q)) as Hlt.
      { apply Qle_lteq in C1. destruct C1; [assumption | contradiction]. }
      assert (Qfloor q = (Qceiling q - 1)%Z) as Hf.
      { apply Qfloor_unique; unfold Z.sub;
          rewrite inject_Z_plus, inject_Z_opp;
          change (inject_Z 1) with 1; lra. }
      assert (Qfloor p = 0%Z) as Hp
        by (apply Qfloor_unique; change (inject_Z 0) with 0; lra).
      rewrite Hp, Hf. unfold Z.sub. rewrite inject_Z_plus, inject_Z_opp.
      change (inject_Z 1) with 1. change (inject_Z 0) with 0. lra.
  - rewrite (trunc_nonneg q Hpos) in R1.
    rewrite (trunc_nonneg p) by lra.
    assert (Qfloor p = 1%Z) as Hp
      by (apply Qfloor_unique; change (inject_Z 1) with 1; lra).
    rewrite Hp. change (inject_Z 1) with 1. lra.
Qed.

Lemma Qabs_cases (v : Q) :
  (0 <= v /\ Qabs v == v) \/ (v < 0 /\ Qabs v == - v).
Proof.
  destruct (Qlt_le_dec v 0) as [H | H].
  - right. split; [assumption |]. apply Qabs_neg. lra.
  - left. split; [assumption |]. now apply Qabs_pos.
Qed.

Lemma Qmin_cases (a b : Q) :
  (a <= b /\ Qmin a b == a) \/ (b < a /\ Qmin a b == b).
Proof.
  destruct (Qlt_le_dec b a) as [H | H].
  - right. split; [assumption |]. apply Q.min_r. lra.
  - left. split; [assumption |]. now apply Q.min_l.
Qed.

(** Replaces every absolute value and minimum of the goal by a fresh
    variable, one case per sign or order. *)
Ltac split_atoms :=
  repeat match goal with
  | |- context [Qabs ?v] =>
      let w := fresh "w" in
      destruct (Qabs_cases v) as [[? ?] | [? ?]];
      set (w := Qabs v) in *; clearbody w
  | |- context [Qmin ?a ?b] =>
      let w := fresh "w" in
      destruct (Qmin_cases a b) as [[? ?] | [? ?]];
      set (w := Qmin a b) in *; clearbody w
  end.

Ltac solve_angle := unfold Spec.angularDistance, Math_abs; split_atoms; lra.

(** Settles a comparison the hypotheses decide. *)
Ltac decide_ltb :=
  match goal with
  | |- context [ltb ?a ?b] =>
      first [ assert (ltb a b = true) as -> by (apply ltb_lt; solve_angle)
            | assert (ltb a b = false) as -> by (apply ltb_ge; solve_angle) ]
  end.

(** Splits on an innermost comparison they leave open. *)
Ltac split_ltb :=
  match goal with
  | |- context [ltb ?a ?b] =>
      lazymatch a with context [ltb _ _] => fail | _ => idtac end;
      lazymatch b with context [ltb _ _] => fail | _ => idtac end;
      let E := fresh "E" in
      destruct (ltb a b) eqn:E; [apply ltb_lt in E | apply ltb_ge in E]
  end.

(** The cascade of [handleMove] against the worded rule, for a
    normalised rotation [n] computed either way. *)
Lemma snap_cascade (n m k r : Q) :
  n == m -> 0 <= m -> m < 360 ->
  let cascade :=
    if ltb n 5 || gtb n 355 then k
    else if ltb (Math_abs (n - 90)) 5 then k + 90
    else if ltb (Math_abs (n - 180)) 5 then k + 180
    else if ltb (Math_abs (n - 270)) 5 then k + 270
    else r in
  (existsb (Spec.within5 m) Spec.snapAngles = true /\
   cascade == k + Spec.nearest m) \/
  (existsb (Spec.within5 m) Spec.snapAngles = false /\ cascade = r).
Proof.
  intros Hn Lo Hi. cbv zeta.
  unfold Spec.snapAngles, Spec.within5, Spec.nearest, Spec.closer, gtb.
  cbn [existsb fold_left].
  destruct (Qlt_le_dec m 5); [| destruct (Qlt_le_dec 85 m);
    [ destruct (Qlt_le_dec m 95); [| destruct (Qlt_le_dec 175 m);
      [ destruct (Qlt_le_dec m 185); [| destruct (Qlt_le_dec 265 m);
        [ destruct (Qlt_le_dec m 275);
          [| destruct (Qlt_le_dec 355 m) ] |] ] |] ] |] ];
    repeat (repeat decide_ltb; try split_ltb); cbn [orb];
    first [ left; split; [reflexivity | lra]
          | right; split; reflexivity ].
Qed.

(** [snap] computes what the worded rule [Spec.snap] says. *)
Lemma snap_refines (r : Q) :
  (existsb (Spec.within5 (Spec.normalize r)) Spec.snapAngles = true /\
   snap r == Math_round (r / 360) * 360 + Spec.nearest (Spec.normalize r)) \/
  (existsb (Spec.within5 (Spec.normalize r)) Spec.snapAngles = false /\
   snap r = r).
Proof.
  destruct (normalize_range r) as [Lo Hi].
  exact (snap_cascade _ _ (Math_round (r / 360) * 360) r
           (rem_rem_normalize r) Lo Hi).
Qed.

Lemma snap_is_Spec_snap (r : Q) : snap r == Spec.snap r.
Proof.
  unfold Spec.snap.
  destruct (snap_refines r) as [[-> H] | [-> H]]; [exact H |].
  rewrite H. reflexivity.
Qed.

End RotationFacts.

Section RotateGesture.

Import JS App LayerComponent.

Lemma handleMove_layerProp (lid : string) (c : Component) (deg : number)
    (s : AppState) (layer : Layer) :
  layerProp lid s = Some layer ->
  exists layer',
    layerProp lid (finalState (handleMove lid c deg s)) = Some layer' /\
    rotation layer' = snap (deg - rotateOffset c).
Proof.
  intros Hprop. unfold handleMove. eexists. split.
  - apply layerProp_updateLayer; [reflexivity | exact Hprop].
  - reflexivity.
Qed.

Lemma rotateMoves_last (lid : string) (c : Component) (deg : number) :
  forall (degs : list number) (s : AppState) (layer : Layer),
    layerProp lid s = Some layer ->
    exists layer',
      layerProp lid (rotateMoves lid c (degs ++ [deg]) s) = Some layer' /\
      rotation layer' = snap (deg - rotateOffset c).
Proof.
  induction degs as [| d0 degs IH]; intros s layer Hprop; cbn [app rotateMoves].
  - exact (handleMove_layerProp lid c deg s layer Hprop).
  - destruct (handleMove_layerProp lid c d0 s layer Hprop) as (l1 & H1 & _).
    exact (IH _ l1 H1).
Qed.

(** What a rotate gesture stores.  The raw rotation of a move is the
    pointer angle minus the offset taken when the gesture began.  With
    [n] that rotation normalised to [[0, 360)]: when [n] is less than 5
    degrees away (on the circle) from 0, 90, 180 or 270, the stored
    rotation is [Math.round(raw / 360) * 360] plus the nearest of those
    four angles; otherwise the raw rotation is stored as it is. *)
Lemma rotateGesture_stores_snap (lid : string) (c : Component)
    (startAngle : number) (degs : list number) (deg : number)
    (s : AppState) (layer : Layer) :
  layerProp lid s = Some layer ->
  let offset := startAngle - rotation layer in
  let raw := deg - offset in
  let n := Spec.normalize raw in
  let inWindow := existsb (Spec.within5 n) Spec.snapAngles in
  exists layer',
    layerProp lid (rotateGesture lid c startAngle (degs ++ [deg]) s)
      = Some layer' /\
    (0 <= n /\ n < 360) /\
    rotation layer' == Spec.snap raw /\
    (inWindow = true ->
     rotation layer' == Math_round (raw / 360) * 360 + Spec.nearest n) /\
    (inWindow = false -> rotation layer' = raw) /\
    snap 88 = 90 /\ snap 84 = 84.
Proof.
  intros Hprop. cbv zeta. unfold rotateGesture. rewrite Hprop.
  destruct (rotateMoves_last lid (handleRotateStart layer startAngle c) deg
              degs s layer Hprop) as (layer' & Hp & Hrot).
  cbn [rotateOffset handleRotateStart] in Hrot.
  exists layer'. split; [exact Hp |].
  split; [apply normalize_range |].
  rewrite Hrot.
  split; [apply snap_is_Spec_snap |].
  destruct (snap_refines (deg - (startAngle - rotation layer)))
    as [[Hw Hs] | [Hw Hs]]; rewrite Hw.
  - split; [intros _; exact Hs |]. split; [discriminate |].
    split; vm_compute; reflexivity.
  - split; [discriminate |]. split; [intros _; exact Hs |].
    split; vm_compute; reflexivity.
Qed.

(** What the rule does at the edge of a window, and past half a turn:
    a rotation exactly 5 degrees away is not snapped, and a snap in the
    upper half of the circle lands one turn further. *)
Example snap_at_window_edge : snap 85 = 85 /\ snap 5 = 5 /\ snap 355 = 355.
Proof. repeat split; vm_compute; reflexivity. Qed.

Example snap_past_half_turn : snap 268 = 630 /\ snap 182 = 540 /\ snap 357 = 360.
Proof. repeat split; vm_compute; reflexivity. Qed.

End RotateGesture.

(* ================================================================== *)
(** * Further properties of the layer store *)
(* ================================================================== *)

Section StoreEdits.

Import JS App LayerStore Controls.

Lemma setLayers_same (s : AppState) (f : list Layer -> list Layer) :
  f (layers s) = layers s -> setLayers f s = (Normal tt, s, []).
Proof.
  intros H. unfold setLayers, modify. rewrite H. now destruct s.
Qed.

Lemma map_untouched (p : Layer -> bool) (g : Layer -> Layer)
    (ls : list Layer) :
  (forall l, In l ls -> p l = false) ->
  map (fun l => if p l then g l else l) ls = ls.
Proof.
  induction ls as [| a ls IH]; cbn; intros H; [reflexivity |].
  rewrite (H a) by auto. f_equal. apply IH. auto.
Qed.

(** X1. [updateLayer] with an id no layer carries changes nothing: the
    whole session state is as before and there is no effect. *)
Theorem updateLayer_unknown_id (lid : string) (fields : PartialLayer)
    (s : AppState) :
  ~ In lid (map id (layers s)) ->
  updateLayer lid fields s = (Normal tt, s, []).
Proof.
  intros Habs. unfold updateLayer. apply setLayers_same.
  apply map_untouched. intros l Hin. apply String.eqb_neq.
  intros E. apply Habs. rewrite <- E. now apply in_map.
Qed.

(** X2. [updateLayerStyle] changes nothing when no TEXT layer carries
    the id, be it unknown or the id of a sticker. *)
Theorem updateLayerStyle_needs_text (lid : string)
    (fields : PartialFontStyle) (s : AppState) :
  (forall l, In l (layers s) -> id l = lid -> type l = STICKER) ->
  updateLayerStyle lid fields s = (Normal tt, s, []).
Proof.
  intros Hst. unfold updateLayerStyle. apply setLayers_same.
  apply (map_untouched
           (fun l => String.eqb (id l) lid && LayerType_eqb (type l) TEXT)).
  intros l Hin. destruct (String.eqb (id l) lid) eqn:E; [| reflexivity].
  apply String.eqb_eq in E. now rewrite (Hst l Hin E).
Qed.

Lemma spreadLayer_id (l : Layer) (fields : PartialLayer) :
  p_id fields = None -> id (spreadLayer l fields) = id l.
Proof. intros H. cbn. now rewrite H. Qed.

Lemma updateLayer_ids (lid : string) (fields : PartialLayer)
    (ls : list Layer) :
  p_id fields = None ->
  map id (map (fun l => if String.eqb (id l) lid
                        then spreadLayer l fields else l) ls)
  = map id ls.
Proof.
  intros H. rewrite map_map. apply map_ext. intros l.
  destruct (String.eqb (id l) lid); [now apply spreadLayer_id | reflexivity].
Qed.

Lemma updateLayerStyle_ids (lid : string) (fields : PartialFontStyle)
    (s : AppState) :
  map id (layers (finalState (updateLayerStyle lid fields s)))
  = map id (layers s).
Proof.
  cbn. rewrite map_map. apply map_ext. intros l.
  now destruct (String.eqb (id l) lid && LayerType_eqb (type l) TEXT).
Qed.

(** X3. [updateLayer] reaches only the layers that carry the id: the
    store keeps its length, every other layer stays where it was, and
    the selection, the image and the background are not written.  When
    the fields carry no [id], the sequence of ids (the paint order) is
    the same as well. *)
Theorem updateLayer_touches_target_only (lid : string)
    (fields : PartialLayer) (s : AppState) :
  let s' := finalState (updateLayer lid fields s) in
  List.length (layers s') = List.length (layers s) /\
  (forall n l, nth_error (layers s) n = Some l -> id l <> lid ->
               nth_error (layers s') n = Some l) /\
  (forall n l, nth_error (layers s) n = Some l -> id l = lid ->
               nth_error (layers s') n = Some (spreadLayer l fields)) /\
  selectedLayerId s' = selectedLayerId s /\
  image s' = image s /\ bgConfig s' = bgConfig s /\
  (p_id fields = None -> map id (layers s') = map id (layers s)).
Proof.
  cbn. split; [apply length_map |].
  split; [| split].
  - intros n l Hn Hne. rewrite nth_error_map, Hn. cbn.
    apply String.eqb_neq in Hne. now rewrite Hne.
  - intros n l Hn He. rewrite nth_error_map, Hn. cbn.
    apply String.eqb_eq in He. now rewrite He.
  - repeat split. now apply updateLayer_ids.
Qed.

Lemma spreadLayer_twice (l : Layer) (fields : PartialLayer) :
  spreadLayer (spreadLayer l fields) fields = spreadLayer l fields.
Proof.
  unfold spreadLayer. cbn.
  destruct fields as [pi pt px py pw ph pr pc ps]; cbn.
  destruct pi, pt, px, py, pw, ph, pr, pc, ps; reflexivity.
Qed.

(** X4. Sending the same fields twice is the same as sending them once,
    as long as they carry no [id]: a repeated callback of a gesture
    leaves the store as the first one made it. *)
Theorem updateLayer_idempotent (lid : string) (fields : PartialLayer)
    (s : AppState) :
  p_id fields = None ->
  finalState (updateLayer lid fields (finalState (updateLayer lid fields s)))
  = finalState (updateLayer lid fields s).
Proof.
  intros Hid. cbn. f_equal. rewrite map_map. apply map_ext. intros l.
  destruct (String.eqb (id l) lid) eqn:E.
  - rewrite (spreadLayer_id l fields Hid), E. apply spreadLayer_twice.
  - now rewrite E.
Qed.

End StoreEdits.

Lemma updateLayer_unknown_id_witness :
  ~ In "zz" (map id (App.layers Sample.composed)) /\
  App.updateLayer "zz"
    (mkPartialLayer None None (Some 5) None None None None None None)
    Sample.composed
  = (JS.Normal tt, Sample.composed, []).
Proof.
  assert (~ In "zz" (map id (App.layers Sample.composed))) as H.
  { cbn. intros [E | [E | []]]; discriminate E. }
  split; [exact H |]. exact (updateLayer_unknown_id _ _ _ H).
Defined.

Lemma updateLayerStyle_needs_text_witness :
  (forall l, In l (App.layers Sample.composed) -> id l = "b" ->
             type l = STICKER) /\
  App.updateLayerStyle "b"
    (mkPartialFontStyle None (Some 80) None None None None None None None)
    Sample.composed
  = (JS.Normal tt, Sample.composed, []).
Proof.
  assert (forall l, In l (App.layers Sample.composed) -> id l = "b" ->
                    type l = STICKER) as H.
  { intros l Hin Hid. cbn in Hin.
    destruct Hin as [<- | [<- | []]]; [discriminate Hid | reflexivity]. }
  split; [exact H |]. exact (updateLayerStyle_needs_text _ _ _ H).
Defined.

Lemma updateLayer_idempotent_witness :
  let fields :=
    mkPartialLayer None None (Some 12) (Some 34) None None None None None in
  App.finalState
    (App.updateLayer "a" fields
       (App.finalState (App.updateLayer "a" fields Sample.composed)))
  = App.finalState (App.updateLayer "a" fields Sample.composed).
Proof.
  cbv zeta. apply updateLayer_idempotent. reflexivity.
Defined.

Lemma updateLayer_touches_target_only_witness :
  let fields :=
    mkPartialLayer None None (Some 12) (Some 34) None None None None None in
  exists l,
    nth_error (App.layers Sample.composed) 1 = Some l /\
    id l <> "a" /\
    nth_error
      (App.layers (App.finalState
                     (App.updateLayer "a" fields Sample.composed))) 1
    = Some l.
Proof.
  cbv zeta. eexists. split; [reflexivity |].
  assert ("b" <> "a") as Hne by discriminate.
  split; [exact Hne |].
  exact (proj1 (proj2 (updateLayer_touches_target_only "a" _ Sample.composed))
           1%nat _ eq_refl Hne).
Defined.

(** ** Distinct ids and a live selection *)

Section StoreInvariants.

Import JS App LayerStore Controls.

Lemma NoDup_ids_filter (p : Layer -> bool) (ls : list Layer) :
  NoDup (map id ls) -> NoDup (map id (List.filter p ls)).
Proof.
  induction ls as [| a ls IH]; cbn; intros H; [constructor |].
  inversion H as [| ? ? Hnotin Hnd]; subst.
  destruct (p a); cbn; [| now apply IH].
  constructor; [| now apply IH].
  intros Hin. apply Hnotin. apply in_map_iff in Hin.
  destruct Hin as [l [Hl Hin]]. apply filter_In in Hin.
  rewrite <- Hl. apply in_map. tauto.
Qed.

Lemma NoDup_ids_snoc (ls : list Layer) (l : Layer) :
  NoDup (map id ls) -> ~ In (id l) (map id ls) ->
  NoDup (map id (ls ++ [l])).
Proof.
  intros Hnd Hfresh. rewrite map_app. cbn.
  apply NoDup_app; [assumption | repeat constructor; intros [] |].
  intros i Hi [<- | []]. contradiction.
Qed.

(** X5. Layer ids stay pairwise distinct under every store operation,
    provided a new layer is given an id no layer has yet and an
    [update] carries no [id]. *)
Theorem store_ops_keep_ids_distinct (s : AppState) (op : Op) :
  NoDup (map id (layers s)) -> keepsIds s op ->
  NoDup (map id (layers (step op s))).
Proof.
  unfold step. intros Hnd Hop.
  destruct op as [rev uuid | rev uuid glyph | lid fields | lid fields
                 | lid | sel]; cbn [run].
  - unfold invoke, addTextLayer.
    destruct (truthy (image s)); cbn; [| exact Hnd].
    now apply NoDup_ids_snoc.
  - unfold invoke, addStickerLayer.
    destruct (truthy (image s)); cbn; [| exact Hnd].
    now apply NoDup_ids_snoc.
  - cbn in Hop. cbn. now rewrite updateLayer_ids.
  - now rewrite updateLayerStyle_ids.
  - unfold invoke, deleteLayer.
    destruct (strict_eq (selectedLayerId s) (Some lid)); cbn;
      now apply NoDup_ids_filter.
  - cbn. exact Hnd.
Qed.

(** X6. A selection that names a layer of the store keeps doing so
    under every store operation (same provisos, and [select] being
    handed the id of a layer or nothing): adding selects the new layer,
    deleting the selected layer clears the selection, and no edit
    renames a layer. *)
Theorem store_ops_keep_selection_live (s : AppState) (op : Op) :
  selectionLive s -> keepsIds s op -> selectionLive (step op s).
Proof.
  unfold step, selectionLive. intros Hlive Hop.
  destruct op as [rev uuid | rev uuid glyph | lid fields | lid fields
                 | lid | sel]; cbn [run].
  - unfold invoke, addTextLayer.
    destruct (truthy (image s)); cbn; [| exact Hlive].
    rewrite map_app. apply in_or_app. right. cbn. auto.
  - unfold invoke, addStickerLayer.
    destruct (truthy (image s)); cbn; [| exact Hlive].
    rewrite map_app. apply in_or_app. right. cbn. auto.
  - cbn in Hop. cbn. now rewrite updateLayer_ids.
  - rewrite updateLayerStyle_ids. cbn. exact Hlive.
  - unfold invoke, deleteLayer.
    destruct (strict_eq (selectedLayerId s) (Some lid)) eqn:Hsel; cbn;
      [exact I |].
    destruct (selectedLayerId s) as [sel |]; [| exact I].
    cbn in Hsel. apply String.eqb_neq in Hsel.
    apply in_map_iff in Hlive. destruct Hlive as [l [Hl Hin]].
    apply in_map_iff. exists l. split; [assumption |].
    apply filter_In. split; [assumption |].
    rewrite negb_true_iff. apply String.eqb_neq. congruence.
  - cbn. destruct sel as [sel |]; [exact Hop | exact I].
Qed.

(** X7. The reset button empties the store and drops the image, so that
    adding a layer is refused again, but it does not write the
    selection: an id selected before the reset is still selected
    afterwards and names no layer. *)
Theorem reset_keeps_selection (rev : Revision) (uuid : string)
    (s : AppState) :
  let s' := finalState (reset rev s) in
  layers s' = [] /\ image s' = None /\
  selectedLayerId s' = selectedLayerId s /\
  selectedLayer s' = None /\
  (selectedLayerId s <> None -> ~ selectionLive s') /\
  invoke (addTextLayer rev uuid) s' = (Normal tt, s', [Alert "请先上传图片"]).
Proof.
  destruct rev; cbn; repeat split;
    try (unfold selectionLive; cbn;
         destruct (selectedLayerId s); [tauto | congruence]).
Qed.

Lemma filter_drops_new (uuid : string) (ls : list Layer) (l : Layer) :
  id l = uuid -> ~ In uuid (map id ls) ->
  List.filter (fun k => negb (String.eqb (id k) uuid)) (ls ++ [l]) = ls.
Proof.
  intros Hid Hfresh. rewrite filter_app. cbn.
  rewrite Hid, String.eqb_refl. cbn. rewrite app_nil_r.
  induction ls as [| a ls IH]; cbn; [reflexivity |].
  cbn in Hfresh.
  destruct (String.eqb (id a) uuid) eqn:E.
  - apply String.eqb_eq in E. tauto.
  - cbn. f_equal. apply IH. tauto.
Qed.

(** X8. Adding a layer under a fresh id and deleting it again gives the
    layer sequence back as it was; the selection, which moved to the
    new layer, ends empty rather than on the layer selected before. *)
Theorem add_then_delete (rev : Revision) (uuid glyph : string)
    (s : AppState) :
  truthy (image s) = true ->
  ~ In uuid (map id (layers s)) ->
  let viaText := step (delete uuid) (step (addText rev uuid) s) in
  let viaSticker := step (delete uuid) (step (addSticker rev uuid glyph) s) in
  layers viaText = layers s /\ selectedLayerId viaText = None /\
  layers viaSticker = layers s /\ selectedLayerId viaSticker = None.
Proof.
  intros Himg Hfresh. cbv zeta.
  unfold step, run, invoke, deleteLayer, addTextLayer, addStickerLayer.
  rewrite Himg. cbn. rewrite String.eqb_refl. cbn.
  repeat split; now apply filter_drops_new.
Qed.

End StoreInvariants.

Lemma store_ops_keep_ids_distinct_witness :
  NoDup (map id (App.layers Sample.composed)) /\
  Controls.keepsIds Sample.composed (LayerStore.addText Desktop "c") /\
  NoDup (map id (App.layers
                   (LayerStore.step (LayerStore.addText Desktop "c")
                      Sample.composed))).
Proof.
  assert (NoDup (map id (App.layers Sample.composed))) as Hnd.
  { cbn. repeat constructor; cbn; intuition discriminate. }
  assert (Controls.keepsIds Sample.composed (LayerStore.addText Desktop "c"))
    as Hk.
  { cbn. intuition discriminate. }
  split; [exact Hnd |]. split; [exact Hk |].
  exact (store_ops_keep_ids_distinct _ _ Hnd Hk).
Defined.

Lemma store_ops_keep_selection_live_witness :
  Controls.selectionLive Sample.composed /\
  Controls.keepsIds Sample.composed (LayerStore.delete "b") /\
  Controls.selectionLive
    (LayerStore.step (LayerStore.delete "b") Sample.composed).
Proof.
  assert (Controls.selectionLive Sample.composed) as Hl.
  { cbn. auto. }
  split; [exact Hl |]. split; [exact I |].
  exact (store_ops_keep_selection_live _ (LayerStore.delete "b") Hl I).
Defined.

Lemma reset_keeps_selection_witness :
  App.selectedLayerId Sample.composed <> None /\
  ~ Controls.selectionLive (App.finalState (App.reset Responsive Sample.composed)).
Proof.
  assert (App.selectedLayerId Sample.composed <> None) as H
    by (cbn; discriminate).
  split; [exact H |].
  exact (proj1 (proj2 (proj2 (proj2 (proj2
           (reset_keeps_selection Responsive "u" Sample.composed))))) H).
Defined.

Lemma add_then_delete_witness :
  JS.truthy (App.image Sample.composed) = true /\
  ~ In "c" (map id (App.layers Sample.composed)) /\
  App.layers
    (LayerStore.step (LayerStore.delete "c")
       (LayerStore.step (LayerStore.addText Responsive "c") Sample.composed))
  = App.layers Sample.composed /\
  App.selectedLayerId
    (LayerStore.step (LayerStore.delete "c")
       (LayerStore.step (LayerStore.addText Responsive "c") Sample.composed))
  = None.
Proof.
  assert (~ In "c" (map id (App.layers Sample.composed))) as Hf.
  { cbn. intuition discriminate. }
  split; [reflexivity |]. split; [exact Hf |].
  destruct (add_then_delete Responsive "c" "✨" Sample.composed eq_refl Hf)
    as (H1 & H2 & _).
  split; assumption.
Defined.

(** ** Where a new layer is put *)

Section Placement.

Import JS App LayerStore Controls.

Lemma find_snoc_fresh (uuid : string) (ls : list Layer) (l : Layer) :
  id l = uuid -> ~ In uuid (map id ls) ->
  find (fun k => strict_eq (Some (id k)) (Some uuid)) (ls ++ [l]) = Some l.
Proof.
  intros Hid Hfresh.
  induction ls as [| a ls IH]; cbn.
  - now rewrite Hid, String.eqb_refl.
  - cbn in Hfresh. destruct (String.eqb (id a) uuid) eqn:E.
    + apply String.eqb_eq in E. tauto.
    + apply IH. tauto.
Qed.

(** X9. With an image loaded, [addTextLayer] appends one TEXT layer on
    top of the others, with the default style and no rotation, and
    selects it.  Its box is centred horizontally in the frame; it is
    centred vertically too unless the responsive revision runs on a
    mobile viewport, where its top edge sits at a fifth of the frame
    height.  Under a fresh id the derived [selectedLayer] is that
    layer. *)
Theorem addTextLayer_places_centred (rev : Revision) (uuid : string)
    (s : AppState) :
  truthy (image s) = true ->
  let s' := finalState (invoke (addTextLayer rev uuid) s) in
  exists l,
    layers s' = (layers s ++ [l])%list /\
    id l = uuid /\ type l = TEXT /\ style l = Some INITIAL_TEXT_STYLE /\
    rotation l = 0 /\
    selectedLayerId s' = Some uuid /\
    x l + width l / 2 == ar_width (aspectRatio s) / 2 /\
    (rev = Desktop \/ isMobile s = false ->
     y l + height l / 2 == ar_height (aspectRatio s) / 2) /\
    (rev = Responsive -> isMobile s = true ->
     y l == ar_height (aspectRatio s) * 0.2) /\
    (~ In uuid (map id (layers s)) -> selectedLayer s' = Some l).
Proof.
  intros Himg. cbv zeta. unfold invoke, addTextLayer. rewrite Himg. cbn.
  eexists. split; [reflexivity |]. cbn.
  repeat split.
  - field.
  - intros [-> | Hm]; [field |]. rewrite Hm. destruct rev; field.
  - intros -> ->. reflexivity.
  - intros Hfresh. unfold selectedLayer. cbn.
    now apply find_snoc_fresh.
Qed.

(** X10. With an image loaded, [addStickerLayer] appends one STICKER
    layer of 150 by 150 without style, holding the glyph, and selects
    it.  Its corner is put 50 before the frame centre, so the centre of
    its box lies 25 right of the frame centre, and (off mobile) 25
    below it. *)
Theorem addStickerLayer_places_off_centre (rev : Revision)
    (uuid glyph : string) (s : AppState) :
  truthy (image s) = true ->
  let s' := finalState (invoke (addStickerLayer rev uuid glyph) s) in
  exists l,
    layers s' = (layers s ++ [l])%list /\
    id l = uuid /\ type l = STICKER /\ style l = None /\
    content l = glyph /\ width l = 150 /\ height l = 150 /\
    selectedLayerId s' = Some uuid /\
    x l + width l / 2 == ar_width (aspectRatio s) / 2 + 25 /\
    (rev = Desktop \/ isMobile s = false ->
     y l + height l / 2 == ar_height (aspectRatio s) / 2 + 25).
Proof.
  intros Himg. cbv zeta. unfold invoke, addStickerLayer. rewrite Himg. cbn.
  eexists. split; [reflexivity |]. cbn.
  repeat split.
  - field.
  - intros [-> | Hm]; [field |]. rewrite Hm. destruct rev; field.
Qed.

End Placement.

Lemma addTextLayer_places_centred_witness :
  JS.truthy (App.image Sample.loaded) = true /\
  exists l,
    App.layers (App.finalState
                  (App.invoke (App.addTextLayer Desktop "t") Sample.loaded))
    = [l] /\
    x l + width l / 2 == 400 /\ y l + height l / 2 == 300.
Proof.
  split; [reflexivity |].
  destruct (addTextLayer_places_centred Desktop "t" Sample.loaded eq_refl)
    as (l & Hl & _ & _ & _ & _ & _ & Hx & Hy & _).
  exists l. split; [exact Hl |].
  split; [rewrite Hx | rewrite Hy by (left; reflexivity)];
    vm_compute; reflexivity.
Defined.

Lemma addStickerLayer_places_off_centre_witness :
  JS.truthy (App.image Sample.loaded) = true /\
  exists l,
    App.layers (App.finalState
                  (App.invoke (App.addStickerLayer Desktop "k" "✨")
                     Sample.loaded))
    = [l] /\
    x l + width l / 2 == 425 /\ y l + height l / 2 == 325.
Proof.
  split; [reflexivity |].
  destruct (addStickerLayer_places_off_centre Desktop "k" "✨" Sample.loaded
              eq_refl)
    as (l & Hl & _ & _ & _ & _ & _ & _ & _ & Hx & Hy).
  exists l. split; [exact Hl |].
  split; [rewrite Hx | rewrite Hy by (left; reflexivity)];
    vm_compute; reflexivity.
Defined.

(* ================================================================== *)
(** * Further properties of the gestures *)
(* ================================================================== *)

Section GestureFrames.

Import JS App LayerComponent Controls.

Lemma sameStyleButSize_refl (a : option FontStyle) : sameStyleButSize a a.
Proof. destruct a; cbn; tauto. Qed.

Lemma sameStyleButSize_trans (a b c : option FontStyle) :
  sameStyleButSize a b -> sameStyleButSize b c -> sameStyleButSize a c.
Proof.
  destruct a, b, c; cbn; try tauto.
  intros (A1 & A2 & A3 & A4 & A5 & A6 & A7 & A8)
         (B1 & B2 & B3 & B4 & B5 & B6 & B7 & B8).
  repeat split; congruence.
Qed.

Lemma resizeUpdates_style (layer : Layer) (c : Component) (e : ResizeEvent) :
  sameStyleButSize (style layer)
    (style (spreadLayer layer (resizeUpdates layer c e))).
Proof.
  unfold resizeUpdates. cbn.
  destruct (type layer), (style layer), (resizeStartData c), (direction e);
    cbn; repeat split.
Qed.

Lemma resizeMoves_frame (lid : string) (c : Component) :
  forall (es : list ResizeEvent) (s : AppState) (layer : Layer),
    layerProp lid s = Some layer ->
    exists layer',
      layerProp lid (resizeMoves lid c es s) = Some layer' /\
      id layer' = id layer /\ type layer' = type layer /\
      rotation layer' = rotation layer /\ content layer' = content layer /\
      sameStyleButSize (style layer) (style layer').
Proof.
  induction es as [| e es IH]; intros s layer Hprop; cbn [resizeMoves].
  - exists layer. repeat split; auto using sameStyleButSize_refl.
  - rewrite Hprop. unfold onResize.
    pose proof (layerProp_id _ _ _ Hprop) as Hid. rewrite Hid.
    pose proof (layerProp_updateLayer lid (resizeUpdates layer c e) s layer
                  eq_refl Hprop) as Hnext.
    destruct (IH _ _ Hnext) as (layer' & Hp & H1 & H2 & H3 & H4 & H5).
    cbn in H1, H2, H3, H4.
    exists layer'. split; [exact Hp |].
    split; [congruence |]. split; [exact H2 |].
    split; [exact H3 |]. split; [exact H4 |].
    eapply sameStyleButSize_trans; [apply resizeUpdates_style | exact H5].
Qed.

(** X11. A resize gesture, whatever its handles and however long, on a
    text layer or a sticker, changes the layer's position and size and
    at most the font size of its style: its id, kind, rotation and
    content are kept, a layer without style stays without, and the
    other style fields are kept. *)
Theorem resize_changes_geometry_and_font_size_only (lid : string)
    (c : Component) (es : list ResizeEvent) (s : AppState) (layer : Layer) :
  layerProp lid s = Some layer ->
  exists layer',
    layerProp lid (resizeGesture lid c es s) = Some layer' /\
    id layer' = id layer /\ type layer' = type layer /\
    rotation layer' = rotation layer /\ content layer' = content layer /\
    sameStyleButSize (style layer) (style layer').
Proof.
  intros Hprop. unfold resizeGesture. rewrite Hprop.
  now apply resizeMoves_frame.
Qed.

Lemma rotateMoves_frame (lid : string) (c : Component) :
  forall (degs : list number) (s : AppState) (layer : Layer),
    layerProp lid s = Some layer ->
    exists layer',
      layerProp lid (rotateMoves lid c degs s) = Some layer' /\
      id layer' = id layer /\ type layer' = type layer /\
      x layer' = x layer /\ y layer' = y layer /\
      width layer' = width layer /\ height layer' = height layer /\
      content layer' = content layer /\ style layer' = style layer.
Proof.
  induction degs as [| d degs IH]; intros s layer Hprop; cbn [rotateMoves].
  - exists layer. repeat split; auto.
  - unfold handleMove.
    match goal with
    | |- context [updateLayer lid ?u s] =>
        pose proof (layerProp_updateLayer lid u s layer eq_refl Hprop)
          as Hnext
    end.
    destruct (IH _ _ Hnext)
      as (layer' & Hp & H1 & H2 & H3 & H4 & H5 & H6 & H7 & H8).
    cbn in H1, H2, H3, H4, H5, H6, H7, H8.
    exists layer'. split; [exact Hp |]. repeat split; assumption.
Qed.

(** X12. A rotate gesture changes nothing of the layer but its
    rotation: position, size, kind, content and style are those it
    had when the gesture began. *)
Theorem rotate_changes_rotation_only (lid : string) (c : Component)
    (startAngle : number) (degs : list number) (s : AppState)
    (layer : Layer) :
  layerProp lid s = Some layer ->
  exists layer',
    layerProp lid (rotateGesture lid c startAngle degs s) = Some layer' /\
    id layer' = id layer /\ type layer' = type layer /\
    x layer' = x layer /\ y layer' = y layer /\
    width layer' = width layer /\ height layer' = height layer /\
    content layer' = content layer /\ style layer' = style layer.
Proof.
  intros Hprop. unfold rotateGesture. rewrite Hprop.
  now apply rotateMoves_frame.
Qed.

End GestureFrames.

Lemma resize_changes_geometry_and_font_size_only_witness :
  exists layer',
    LayerComponent.layerProp "b"
      (LayerComponent.resizeGesture "b" LayerComponent.mount
         [LayerComponent.mkResizeEvent LayerComponent.TopLeft 90 90 (10, 20)]
         Sample.composed) = Some layer' /\
    type layer' = STICKER /\ style layer' = None /\ content layer' = "✨".
Proof.
  destruct (resize_changes_geometry_and_font_size_only "b"
              LayerComponent.mount
              [LayerComponent.mkResizeEvent LayerComponent.TopLeft 90 90
                 (10, 20)]
              Sample.composed _ eq_refl)
    as (layer' & Hp & _ & Hty & _ & Hc & Hs).
  exists layer'. split; [exact Hp |]. split; [exact Hty |].
  split; [| exact Hc].
  cbn in Hs. destruct (style layer'); [contradiction | reflexivity].
Defined.

Lemma rotate_changes_rotation_only_witness :
  exists layer',
    LayerComponent.layerProp "a"
      (LayerComponent.rotateGesture "a" LayerComponent.mount 45 [100; 133]
         Sample.composed) = Some layer' /\
    width layer' = 400 /\ height layer' = 150 /\
    style layer' = Some App.INITIAL_TEXT_STYLE.
Proof.
  destruct (rotate_changes_rotation_only "a" LayerComponent.mount 45
              [100; 133] Sample.composed _ eq_refl)
    as (layer' & Hp & _ & _ & _ & _ & Hw & Hh & _ & Hs).
  exists layer'. repeat split; assumption.
Defined.

(** ** What snapping does to the direction shown *)

Section SnapDirection.

Import JS App LayerComponent.

Ltac split_atoms' :=
  repeat match goal with
  | |- context [Qabs ?v] =>
      let w := fresh "w" in
      destruct (Qabs_cases v) as [[? ?] | [? ?]];
      set (w := Qabs v) in *; clearbody w
  | |- context [Qmin ?a ?b] =>
      let w := fresh "w" in
      destruct (Qmin_cases a b) as [[? ?] | [? ?]];
      set (w := Qmin a b) in *; clearbody w
  end.

Ltac solve_angle' :=
  unfold Spec.angularDistance, Math_abs; split_atoms'; lra.

Ltac decide_ltb' :=
  match goal with
  | |- context [ltb ?a ?b] =>
      first [ assert (ltb a b = true) as -> by (apply ltb_lt; solve_angle')
            | assert (ltb a b = false) as -> by (apply ltb_ge; solve_angle') ]
  end.

Ltac split_ltb' :=
  match goal with
  | |- context [ltb ?a ?b] =>
      lazymatch a with context [ltb _ _] => fail | _ => idtac end;
      lazymatch b with context [ltb _ _] => fail | _ => idtac end;
      let E := fresh "E" in
      destruct (ltb a b) eqn:E; [apply ltb_lt in E | apply ltb_ge in E]
  end.

(** In a snap window the nearest snap angle is one of the four and is
    itself less than 5 degrees away. *)
Lemma nearest_in_window (n : Q) :
  0 <= n -> n < 360 ->
  existsb (Spec.within5 n) Spec.snapAngles = true ->
  Spec.within5 n (Spec.nearest n) = true /\
  (Spec.nearest n = 0 \/ Spec.nearest n = 90 \/
   Spec.nearest n = 180 \/ Spec.nearest n = 270).
Proof.
  intros Lo Hi.
  unfold Spec.snapAngles, Spec.within5, Spec.nearest, Spec.closer.
  cbn [existsb fold_left].
  destruct (Qlt_le_dec n 5); [| destruct (Qlt_le_dec 85 n);
    [ destruct (Qlt_le_dec n 95); [| destruct (Qlt_le_dec 175 n);
      [ destruct (Qlt_le_dec n 185); [| destruct (Qlt_le_dec 265 n);
        [ destruct (Qlt_le_dec n 275);
          [| destruct (Qlt_le_dec 355 n) ] |] ] |] ] |] ];
    repeat (repeat decide_ltb'; try split_ltb'); cbn [orb];
    intros Hw; try discriminate Hw; split; try reflexivity; tauto.
Qed.

Lemma normalize_comp (a b : Q) : a == b -> Spec.normalize a == Spec.normalize b.
Proof.
  intros E. unfold Spec.normalize.
  rewrite (Qfloor_comp (a / 360) (b / 360)) by (now rewrite E).
  now rewrite E.
Qed.

(** Whole turns drop out of a normalised rotation. *)
Lemma normalize_turns (k : Z) (t : Q) :
  0 <= t -> t < 360 -> Spec.normalize (inject_Z k * 360 + t) == t.
Proof.
  intros Lo Hi. unfold Spec.normalize.
  assert (Qfloor ((inject_Z k * 360 + t) / 360) = k) as ->.
  { apply Qfloor_unique.
    - apply Qle_shift_div_l; lra.
    - apply Qlt_shift_div_r; lra. }
  lra.
Qed.

(** X13. Snapping never turns what is shown by 5 degrees or more: when
    the normalised rotation is in a snap window, the stored rotation,
    normalised, is exactly the nearest of 0, 90, 180, 270, which lies
    less than 5 degrees from the raw direction; otherwise the stored
    rotation is the raw one. *)
Theorem snap_keeps_direction (r : number) :
  let n := Spec.normalize r in
  (existsb (Spec.within5 n) Spec.snapAngles = true ->
   Spec.normalize (snap r) == Spec.nearest n /\
   Spec.angularDistance n (Spec.nearest n) < 5 /\
   In (Spec.nearest n) Spec.snapAngles) /\
  (existsb (Spec.within5 n) Spec.snapAngles = false -> snap r = r).
Proof.
  cbv zeta. destruct (normalize_range r) as [Lo Hi].
  destruct (snap_refines r) as [[Hw Hs] | [Hw Hs]]; rewrite Hw;
    (split; [| intros E; try discriminate E; exact Hs]).
  - intros _.
    destruct (nearest_in_window _ Lo Hi Hw) as [Hnear Hfour].
    assert (0 <= Spec.nearest (Spec.normalize r) /\
            Spec.nearest (Spec.normalize r) < 360) as [Lt Ht].
    { destruct Hfour as [E | [E | [E | E]]]; rewrite E; split; lra. }
    split; [| split].
    + rewrite (normalize_comp _ _ Hs). unfold Math_round.
      now apply normalize_turns.
    + now apply ltb_lt.
    + destruct Hfour as [E | [E | [E | E]]]; rewrite E; cbn; auto.
  - intros E. discriminate E.
Qed.

End SnapDirection.

Lemma snap_keeps_direction_witness :
  Spec.normalize (LayerComponent.snap 268) == 270 /\
  LayerComponent.snap 200 = 200.
Proof.
  split.
  - destruct (snap_keeps_direction 268) as [H _].
    destruct (H eq_refl) as [Hn _]. rewrite Hn. reflexivity.
  - apply (snap_keeps_direction 200). reflexivity.
Defined.

(** ** Snapping and equal rotations *)

Section SnapAgain.

Import JS App LayerComponent.

Lemma ltb_comp (a a' b b' : Q) : a == a' -> b == b' -> ltb a b = ltb a' b'.
Proof. intros Ea Eb. unfold ltb. now rewrite (Qleb_comp _ _ Eb _ _ Ea). Qed.

Lemma angularDistance_comp (n n' t : Q) :
  n == n' -> Spec.angularDistance n t == Spec.angularDistance n' t.
Proof. intros E. unfold Spec.angularDistance. now rewrite E. Qed.

Lemma within5_comp (n n' t : Q) :
  n == n' -> Spec.within5 n t = Spec.within5 n' t.
Proof.
  intros E. unfold Spec.within5.
  apply ltb_comp; [now apply angularDistance_comp | reflexivity].
Qed.

Lemma nearest_comp (n n' : Q) : n == n' -> Spec.nearest n = Spec.nearest n'.
Proof.
  intros E. unfold Spec.nearest, Spec.closer. cbn [fold_left].
  rewrite (ltb_comp _ _ _ _ (angularDistance_comp n n' 90 E)
             (angularDistance_comp n n' 0 E)).
  destruct (ltb (Spec.angularDistance n' 90) (Spec.angularDistance n' 0));
    rewrite (ltb_comp _ _ _ _ (angularDistance_comp n n' 180 E)
               (angularDistance_comp n n' _ E));
    match goal with
    | |- context [if ?b then 180 else ?z] => destruct b
    end;
    rewrite (ltb_comp _ _ _ _ (angularDistance_comp n n' 270 E)
               (angularDistance_comp n n' _ E));
    reflexivity.
Qed.

Lemma window_comp (n n' : Q) :
  n == n' ->
  existsb (Spec.within5 n) Spec.snapAngles
  = existsb (Spec.within5 n') Spec.snapAngles.
Proof.
  intros E. unfold Spec.snapAngles. cbn [existsb].
  now rewrite !(within5_comp n n' _ E).
Qed.

Lemma round_turns (k : Z) (t : Q) (up : Z) :
  inject_Z up * 360 <= t + 180 -> t + 180 < inject_Z up * 360 + 360 ->
  Math_round ((inject_Z k * 360 + t) / 360) = inject_Z (k + up).
Proof.
  intros Lo Hi. unfold Math_round. f_equal.
  apply Qfloor_unique; rewrite inject_Z_plus.
  - setoid_replace ((inject_Z k * 360 + t) / 360 + (1 # 2))
      with (inject_Z k + (t + 180) / 360) by field.
    assert (inject_Z up <= (t + 180) / 360)
      by (apply Qle_shift_div_l; lra).
    lra.
  - setoid_replace ((inject_Z k * 360 + t) / 360 + (1 # 2))
      with (inject_Z k + (t + 180) / 360) by field.
    assert ((t + 180) / 360 < inject_Z up + 1)
      by (apply Qlt_shift_div_r; lra).
    lra.
Qed.

Lemma snap_whole_turns (k : Z) (t : Q) (up : Z) :
  0 <= t -> t < 360 ->
  existsb (Spec.within5 t) Spec.snapAngles = true ->
  inject_Z up * 360 <= t + 180 -> t + 180 < inject_Z up * 360 + 360 ->
  snap (inject_Z k * 360 + t)
  == inject_Z (k + up) * 360 + Spec.nearest t.
Proof.
  intros Lo Hi Hw Hup1 Hup2.
  pose proof (normalize_turns k t Lo Hi) as En.
  destruct (snap_refines (inject_Z k * 360 + t)) as [[_ Hs] | [Hout _]].
  - rewrite Hs, (nearest_comp _ _ En), (round_turns k t up Hup1 Hup2).
    reflexivity.
  - rewrite (window_comp _ _ En) in Hout. congruence.
Qed.

(** X15. A rotation of whole turns plus 0 or 90 degrees is a fixed
    point of the snapping rule; one of whole turns plus 180 or 270 is
    not: snapping it again stores one turn more. *)
Theorem resnap_adds_turn_past_half (k : Z) :
  let turns := inject_Z k * 360 in
  snap (turns + 0) == turns + 0 /\
  snap (turns + 90) == turns + 90 /\
  snap (turns + 180) == turns + 180 + 360 /\
  snap (turns + 270) == turns + 270 + 360.
Proof.
  cbv zeta.
  assert (inject_Z 0 * 360 <= 0 + 180 /\ 0 + 180 < inject_Z 0 * 360 + 360)
    as [A0 B0] by (change (inject_Z 0) with 0; split; lra).
  assert (inject_Z 0 * 360 <= 90 + 180 /\ 90 + 180 < inject_Z 0 * 360 + 360)
    as [A1 B1] by (change (inject_Z 0) with 0; split; lra).
  assert (inject_Z 1 * 360 <= 180 + 180 /\
          180 + 180 < inject_Z 1 * 360 + 360)
    as [A2 B2] by (change (inject_Z 1) with 1; split; lra).
  assert (inject_Z 1 * 360 <= 270 + 180 /\
          270 + 180 < inject_Z 1 * 360 + 360)
    as [A3 B3] by (change (inject_Z 1) with 1; split; lra).
  split; [| split; [| split]].
  - rewrite (snap_whole_turns k 0 0 ltac:(lra) ltac:(lra) eq_refl A0 B0).
    rewrite Z.add_0_r. reflexivity.
  - rewrite (snap_whole_turns k 90 0 ltac:(lra) ltac:(lra) eq_refl A1 B1).
    rewrite Z.add_0_r. reflexivity.
  - rewrite (snap_whole_turns k 180 1 ltac:(lra) ltac:(lra) eq_refl A2 B2).
    rewrite inject_Z_plus. change (inject_Z 1) with 1.
    change (Spec.nearest 180) with 180. ring.
  - rewrite (snap_whole_turns k 270 1 ltac:(lra) ltac:(lra) eq_refl A3 B3).
    rewrite inject_Z_plus. change (inject_Z 1) with 1.
    change (Spec.nearest 270) with 270. ring.
Qed.

End SnapAgain.

(* ================================================================== *)
(** * Further properties of the export pipeline *)
(* ================================================================== *)

Section ExportOutcomes.

Import JS App.

Variable toPng : AppState -> ToPngOptions -> Completion string.
Variable Date_now : Z.

Ltac run_export' s :=
  unfold invoke, handleExport, duringExport, bind, get, try_finally,
    try_catch, await_toPng, emit, ret, throw, setIsExporting,
    setSelectedLayerId, modify, finalState, effects, completion;
  cbn -[truthy string_of_Z append];
  destruct (negb (workspaceRef s) || negb (truthy (image s))) eqn:Hguard;
  cbn -[truthy string_of_Z append];
  repeat match goal with
         | |- context [toPng ?d ?o] =>
             let E := fresh "Hpng" in
             let url := fresh "url" in
             destruct (toPng d o) as [url |] eqn:E;
             [ destruct (truthy (Some url)) eqn:? | ];
             cbn -[truthy string_of_Z append]
         | |- context [match ?r with Responsive => _ | Desktop => _ end] =>
             is_var r; destruct r; cbn -[truthy string_of_Z append]
         end.

Lemma guard_passes (s : AppState) :
  workspaceRef s = true -> truthy (image s) = true ->
  negb (workspaceRef s) || negb (truthy (image s)) = false.
Proof. now intros -> ->. Qed.

Ltac in_trace' :=
  repeat match goal with
         | H : In _ _ |- _ => cbn in H
         | H : _ \/ _ |- _ => destruct H
         | H : False |- _ => contradiction
         | H : ex _ |- _ => destruct H
         | H : ToPng _ _ = ToPng _ _ |- _ => inversion H; subst; clear H
         | H : Download _ _ = Download _ _ |- _ =>
             inversion H; subst; clear H
         | H : Alert _ = Alert _ |- _ => inversion H; subst; clear H
         | H : _ = ToPng _ _ |- _ => discriminate H
         | H : _ = Download _ _ |- _ => discriminate H
         | H : _ = Alert _ |- _ => discriminate H
         end.

(** X16. An export leaves the session as it found it: with the busy
    flag down beforehand, the state after [handleExport] is the state
    before, on every outcome.  While [toPng] runs the busy flag is up
    and the layers are those of the session. *)
Theorem export_leaves_session_unchanged (rev : Revision) (s : AppState) :
  let r := invoke (handleExport toPng Date_now rev) s in
  (isExporting s = false -> finalState r = s) /\
  (forall dom opts, In (ToPng dom opts) (effects r) ->
     isExporting dom = true /\ layers dom = layers s /\
     bgConfig dom = bgConfig s /\ image dom = image s).
Proof.
  run_export' s;
    (split;
     [ intros Hbusy; destruct s; cbn in *; subst; reflexivity
     | intros dom opts Hin; in_trace'; repeat split ]).
Qed.

(** X17. Without a loaded image, or with the workspace not mounted,
    [handleExport] does nothing at all: no state cell is written, not
    even the busy flag, and there is no effect. *)
Theorem export_needs_image (rev : Revision) (s : AppState) :
  workspaceRef s = false \/ truthy (image s) = false ->
  invoke (handleExport toPng Date_now rev) s = (Normal tt, s, []).
Proof.
  intros Hguard. unfold invoke, handleExport, bind, get.
  destruct Hguard as [-> | ->]; cbn; [reflexivity |].
  now destruct (workspaceRef s).
Qed.

(** X18. What an export hands over for download is the data URL of the
    attempt that resolved, never an empty one, under the file name
    [tuling-design-<Date.now()>.png]; and an export that hands over a
    download raises no alert, also when it took the retry. *)
Theorem export_download_is_resolved_url (rev : Revision) (s : AppState)
    (filename href : string) :
  let r := invoke (handleExport toPng Date_now rev) s in
  let dom := duringExport s in
  let fast := {| common := commonConfig s dom; cacheBust := false |} in
  let slow := {| common := commonConfig s dom; cacheBust := true |} in
  In (Download filename href) (effects r) ->
  filename = "tuling-design-" ++ string_of_Z Date_now ++ ".png" /\
  truthy (Some href) = true /\
  (toPng dom fast = Normal href \/
   (exists e, toPng dom fast = Throw e) /\ toPng dom slow = Normal href) /\
  (forall msg, ~ In (Alert msg) (effects r)).
Proof.
  cbv zeta.
  run_export' s; intros Hin; in_trace';
    (split; [reflexivity |]); (split; [assumption |]);
    (split; [first [ left; reflexivity
                   | right; split; [eexists; reflexivity | congruence] ] |]);
    intros msg Ha; in_trace'.
Qed.

(** X19. When both attempts reject, the export raises the failure
    alert after logging to the console and hands over no download. *)
Theorem export_failure_alerts (rev : Revision) (s : AppState)
    (e1 e2 : string) :
  let r := invoke (handleExport toPng Date_now rev) s in
  let dom := duringExport s in
  let fast := {| common := commonConfig s dom; cacheBust := false |} in
  let slow := {| common := commonConfig s dom; cacheBust := true |} in
  workspaceRef s = true -> truthy (image s) = true ->
  toPng dom fast = Throw e1 -> toPng dom slow = Throw e2 ->
  (exists msg, In (Alert msg) (effects r)) /\
  In (ConsoleError "Export failed") (effects r) /\
  (forall filename href, ~ In (Download filename href) (effects r)) /\
  completion r = Normal tt.
Proof.
  cbv zeta. intros Hw Hi. pose proof (guard_passes s Hw Hi) as Hg.
  run_export' s; intros H1 H2; try congruence;
    (split; [eexists; cbn; eauto 8 |]);
    (split; [cbn; auto 8 |]);
    (split; [intros f h Hin; in_trace' | reflexivity]).
Qed.

(** X20. An attempt that resolves with an empty data URL hands over no
    download in either revision; the responsive revision then ends
    without any notice, the desktop revision raises the failure
    alert. *)
Theorem export_empty_url (rev : Revision) (s : AppState) :
  let r := invoke (handleExport toPng Date_now rev) s in
  let dom := duringExport s in
  let fast := {| common := commonConfig s dom; cacheBust := false |} in
  workspaceRef s = true -> truthy (image s) = true ->
  toPng dom fast = Normal EmptyString ->
  (forall filename href, ~ In (Download filename href) (effects r)) /\
  (rev = Responsive -> forall msg, ~ In (Alert msg) (effects r)) /\
  (rev = Desktop -> exists msg, In (Alert msg) (effects r)).
Proof.
  cbv zeta. intros Hw Hi. pose proof (guard_passes s Hw Hi) as Hg.
  run_export' s; intros H1; try congruence;
    try (injection H1 as ->; discriminate);
    (split; [intros f h Hin; in_trace' |]);
    (split; [intros Hr msg Hin; try discriminate Hr; in_trace'
            | intros Hr; try discriminate Hr; eexists; cbn; eauto 8]).
Qed.

End ExportOutcomes.

Lemma export_leaves_session_unchanged_witness :
  App.isExporting Sample.composed = false /\
  App.finalState
    (App.invoke (App.handleExport Sample.toPngFails Sample.clock Desktop)
       Sample.composed) = Sample.composed.
Proof.
  split; [reflexivity |].
  apply (export_leaves_session_unchanged Sample.toPngFails Sample.clock
           Desktop Sample.composed).
  reflexivity.
Defined.

Lemma export_needs_image_witness :
  JS.truthy (App.image App.initialState) = false /\
  App.invoke (App.handleExport Sample.toPngOk Sample.clock Responsive)
    App.initialState = (JS.Normal tt, App.initialState, []).
Proof.
  split; [reflexivity |].
  apply export_needs_image. right. reflexivity.
Defined.

Lemma export_download_is_resolved_url_witness :
  In (App.Download "tuling-design-1700000000000.png"
        "data:image/png;base64,BBBB")
     (App.effects
        (App.invoke (App.handleExport Sample.toPngSlowOnly Sample.clock
                       Desktop) Sample.composed)) /\
  forall msg,
    ~ In (App.Alert msg)
        (App.effects
           (App.invoke (App.handleExport Sample.toPngSlowOnly Sample.clock
                          Desktop) Sample.composed)).
Proof.
  assert (In (App.Download "tuling-design-1700000000000.png"
                "data:image/png;base64,BBBB")
             (App.effects
                (App.invoke (App.handleExport Sample.toPngSlowOnly
                               Sample.clock Desktop) Sample.composed)))
    as Hin.
  { vm_compute. tauto. }
  split; [exact Hin |].
  apply (export_download_is_resolved_url Sample.toPngSlowOnly Sample.clock
           Desktop Sample.composed _ _ Hin).
Defined.

Lemma export_failure_alerts_witness :
  exists msg,
    In (App.Alert msg)
       (App.effects
          (App.invoke (App.handleExport Sample.toPngFails Sample.clock
                         Responsive) Sample.composed)).
Proof.
  apply (export_failure_alerts Sample.toPngFails Sample.clock Responsive
           Sample.composed "tainted canvas" "tainted canvas");
    reflexivity.
Defined.

Lemma export_empty_url_witness :
  (forall msg,
     ~ In (App.Alert msg)
         (App.effects
            (App.invoke (App.handleExport (fun _ _ => JS.Normal EmptyString)
                           Sample.clock Responsive) Sample.composed))) /\
  (exists msg,
     In (App.Alert msg)
        (App.effects
           (App.invoke (App.handleExport (fun _ _ => JS.Normal EmptyString)
                          Sample.clock Desktop) Sample.composed))).
Proof.
  split.
  - apply (export_empty_url (fun _ _ => JS.Normal EmptyString) Sample.clock
             Responsive Sample.composed); reflexivity.
  - apply (export_empty_url (fun _ _ => JS.Normal EmptyString) Sample.clock
             Desktop Sample.composed); reflexivity.
Defined.

(* ================================================================== *)
(** * Image loading, zoom and keyboard *)
(* ================================================================== *)

Section UploadAndControls.

Import JS App Controls.

(** X21. In the responsive revision the [isReplace] flag of
    [handleImageUpload] changes nothing: the upload input and the
    replace input give the same state, the same effects and the same
    completion. *)
Theorem handleImageUpload_ignores_isReplace (isReplace isReplace' : bool)
    (file : option LoadedImage) (closure s : AppState) :
  handleImageUpload Responsive file isReplace closure s
  = handleImageUpload Responsive file isReplace' closure s.
Proof.
  unfold handleImageUpload. destruct file as [img |]; [| reflexivity].
  destruct isReplace, isReplace',
    (truthy (image closure)),
    (String.eqb (ar_name (aspectRatio closure)) "original"); reflexivity.
Qed.

(** X22. A completed load always records the natural size of the image.
    The frame follows the image (it becomes the frame named [original]
    of that size) on the first upload and whenever the current frame is
    the original one; with an image present and a preset frame chosen,
    the frame is kept.  The fit-to-screen effect the desktop revision
    runs after the load writes the zoom only, so all this is still so
    once it has run.  With no file chosen nothing changes. *)
Theorem upload_frame_rule (rev : Revision) (img : LoadedImage)
    (isReplace : bool) (closure s : AppState) :
  let s' := finalState (handleImageUpload rev (Some img) isReplace closure s) in
  originalSize s' = Some (naturalWidth img, naturalHeight img) /\
  (truthy (image closure) = false \/
   ar_name (aspectRatio closure) = "original" ->
   aspectRatio s' =
     {| ar_name := "original"; ar_width := naturalWidth img;
        ar_height := naturalHeight img; ar_label := "原图";
        ar_icon := "image" |}) /\
  (truthy (image closure) = true ->
   ar_name (aspectRatio closure) <> "original" ->
   aspectRatio s' = aspectRatio s) /\
  handleImageUpload rev None isReplace closure s = (Normal tt, s, []) /\
  (forall container,
     let fitted := finalState (invoke (fitToScreen container) s') in
     originalSize fitted = originalSize s' /\
     aspectRatio fitted = aspectRatio s' /\
     image fitted = image s' /\ bgConfig fitted = bgConfig s' /\
     layers fitted = layers s' /\
     selectedLayerId fitted = selectedLayerId s').
Proof.
  cbv zeta. unfold handleImageUpload.
  destruct (truthy (image closure)) eqn:Himg;
    destruct (String.eqb (ar_name (aspectRatio closure)) "original") eqn:Hname;
    destruct rev, isReplace; cbn;
    repeat split; try reflexivity;
    try (destruct container as [[contW contH] |]; reflexivity);
    try (intros [H | H]; try discriminate H;
         apply String.eqb_eq in H; congruence);
    try (intros _ H; apply String.eqb_eq in Hname; contradiction);
    try (intros H; discriminate H).
Qed.


Lemma Math_min_spec (a b : number) :
  Math_min a b <= a /\ Math_min a b <= b /\
  (Math_min a b = a \/ Math_min a b = b).
Proof.
  unfold Math_min. destruct (Qle_bool a b) eqn:E.
  - apply Qle_bool_iff in E. repeat split; auto; lra.
  - assert (~ a <= b) by (intros H; apply Qle_bool_iff in H; congruence).
    repeat split; auto; lra.
Qed.




(** X24. The fit-to-screen effect sets the zoom to the smallest of
    0.8, [(contW - 60) / width] and [(contH - 60) / height] of the
    frame: the new zoom is one of the three and exceeds none of them.
    There is no lower bound: for a frame of positive width a container
    narrower than 60 pixels gives a negative zoom. *)
Theorem fitToScreen_fits (contW contH : number) (closure s : AppState) :
  let w := ar_width (aspectRatio closure) in
  let h := ar_height (aspectRatio closure) in
  let z := canvasScale
             (finalState (fitToScreen (Some (contW, contH)) closure s)) in
  z <= 0.8 /\ z <= (contW - 60) / w /\ z <= (contH - 60) / h /\
  (z = 0.8 \/ z = (contW - 60) / w \/ z = (contH - 60) / h) /\
  (0 < w -> contW < 60 -> z < 0).
Proof.
  cbv zeta. cbn. unfold Math_min3.
  set (w := ar_width (aspectRatio closure)).
  set (a := (contW - 60) / w). set (b := (contH - 60) / _).
  destruct (Math_min_spec a b) as (M1 & M2 & M3).
  destruct (Math_min_spec (Math_min a b) 0.8) as (N1 & N2 & N3).
  split; [exact N2 |]. split; [lra |]. split; [lra |]. split.
  - destruct N3 as [-> | ->]; [| left; reflexivity].
    destruct M3 as [-> | ->]; [right; left | right; right]; reflexivity.
  - intros Hw Hsmall.
    assert (w * a == contW - 60) as Ew by (unfold a; field; lra).
    assert (a < 0) as Ha.
    { apply Qnot_le_lt. intros Hge.
      assert (0 <= w * a) by (apply Qmult_le_0_compat; lra). lra. }
    lra.
Qed.

Lemma zoomClicks_view (rev : Revision) (bs : list ZoomClick) (s : AppState) :
  isMobile (zoomClicks rev bs s) = isMobile s /\
  aspectRatio (zoomClicks rev bs s) = aspectRatio s.
Proof.
  revert s. induction bs as [| b bs IH]; intros s; cbn [zoomClicks];
    [split; reflexivity |].
  destruct (IH (finalState (zoomClick rev b s))) as [-> ->].
  destruct b; split; reflexivity.
Qed.

(** X25. After the responsive check has seen a window narrower than
    768 pixels, the responsive revision renders the frame at
    [innerWidth / width * 0.85] whatever the zoom cell holds: neither
    writing the cell nor any number of clicks on the zoom buttons
    changes the scale.  After the check has seen a window of 768 pixels
    or more, the scale is the zoom cell. *)
Theorem viewportScale_on_mobile (innerWidth zoom : number)
    (bs : list ZoomClick) (s : AppState) :
  let m := finalState (Program.checkMobile innerWidth s) in
  (innerWidth < 768 ->
   viewportScale innerWidth m
   = innerWidth / ar_width (aspectRatio s) * 0.85 /\
   viewportScale innerWidth (finalState (setCanvasScale zoom m))
   = viewportScale innerWidth m /\
   viewportScale innerWidth (zoomClicks Responsive bs m)
   = viewportScale innerWidth m) /\
  (768 <= innerWidth ->
   viewportScale innerWidth m = canvasScale s /\
   viewportScale innerWidth (finalState (setCanvasScale zoom m)) = zoom).
Proof.
  cbv zeta. split; intros Hw.
  - assert (ltb innerWidth 768 = true) as Hm by (now apply ltb_lt).
    unfold viewportScale.
    destruct (zoomClicks_view Responsive bs
                (finalState (Program.checkMobile innerWidth s))) as [-> ->].
    cbn. rewrite Hm. repeat split.
  - assert (ltb innerWidth 768 = false) as Hm by (now apply ltb_ge).
    unfold viewportScale. cbn. rewrite Hm. split; reflexivity.
Qed.

(** X26. The keyboard shortcut of the desktop revision deletes the
    selected layer and clears the selection on Delete or Backspace; it
    does nothing for any other key, with nothing selected, or while the
    key goes to an input or a textarea (so typing in a text layer never
    deletes it). *)
Theorem handleKeyDown_deletes_selection_only (key tagName : string)
    (s : AppState) :
  (tagName = "INPUT" \/ tagName = "TEXTAREA" ->
   invoke (handleKeyDown key tagName) s = (Normal tt, s, [])) /\
  (key <> "Delete" -> key <> "Backspace" ->
   invoke (handleKeyDown key tagName) s = (Normal tt, s, [])) /\
  (selectedLayerId s = None ->
   invoke (handleKeyDown key tagName) s = (Normal tt, s, [])) /\
  (forall sel,
     key = "Delete" \/ key = "Backspace" ->
     tagName <> "INPUT" -> tagName <> "TEXTAREA" ->
     selectedLayerId s = Some sel -> sel <> EmptyString ->
     let s' := finalState (invoke (handleKeyDown key tagName) s) in
     layers s' =
       List.filter (fun l => negb (String.eqb (id l) sel)) (layers s) /\
     ~ In sel (map id (layers s')) /\
     selectedLayerId s' = None).
Proof.
  unfold invoke, handleKeyDown.
  split; [| split; [| split]].
  - intros Htag.
    destruct ((String.eqb key "Delete" || String.eqb key "Backspace")
              && truthy (selectedLayerId s)); [| reflexivity].
    destruct Htag as [-> | ->]; reflexivity.
  - intros H1 H2. apply String.eqb_neq in H1, H2. now rewrite H1, H2.
  - intros ->. cbn. now rewrite andb_false_r.
  - intros sel Hkey Ht1 Ht2 Hsel Hne.
    apply String.eqb_neq in Ht1, Ht2, Hne.
    assert (String.eqb key "Delete" || String.eqb key "Backspace" = true)
      as Hk.
    { destruct Hkey as [-> | ->]; reflexivity. }
    rewrite Hk, Hsel. cbn [truthy andb]. rewrite Hne, Ht1, Ht2.
    cbn [negb orb]. unfold deleteLayer. rewrite Hsel. cbn.
    rewrite String.eqb_refl. cbn.
    repeat split. apply filter_drops_id.
Qed.

(** X27. A sticker's glyph is drawn at four fifths of the shorter side
    of its box, so for a box of non-negative size it exceeds neither
    side. *)
Theorem stickerFontSize_fits_box (layer : Layer) :
  0 <= width layer -> 0 <= height layer ->
  0 <= stickerFontSize layer /\
  stickerFontSize layer <= width layer /\
  stickerFontSize layer <= height layer /\
  (width layer == height layer ->
   stickerFontSize layer == width layer * 0.8).
Proof.
  intros Hw Hh. unfold stickerFontSize.
  destruct (Math_min_spec (width layer) (height layer)) as (M1 & M2 & M3).
  set (m := Math_min (width layer) (height layer)) in *.
  assert (0 <= m) by (destruct M3 as [E | E]; rewrite E; assumption).
  repeat split; try lra.
  intros E. destruct M3 as [E' | E']; rewrite E'; lra.
Qed.

End UploadAndControls.

Lemma upload_frame_rule_witness :
  JS.truthy (App.image Sample.composed) = true /\
  App.aspectRatio
    (App.finalState
       (App.handleImageUpload Responsive (Some Sample.photo) true
          Sample.composed Sample.composed))
  = {| ar_name := "original"; ar_width := 800; ar_height := 600;
       ar_label := "原图"; ar_icon := "image" |} /\
  App.aspectRatio
    (App.finalState
       (App.handleImageUpload Desktop (Some Sample.photo) false
          App.initialState App.initialState))
  = {| ar_name := "original"; ar_width := 800; ar_height := 600;
       ar_label := "原图"; ar_icon := "image" |}.
Proof.
  split; [reflexivity |]. split.
  - exact (proj1 (proj2 (upload_frame_rule Responsive Sample.photo true
                           Sample.composed Sample.composed))
             (or_intror eq_refl)).
  - exact (proj1 (proj2 (upload_frame_rule Desktop Sample.photo false
                           App.initialState App.initialState))
             (or_introl eq_refl)).
Defined.


Lemma fitToScreen_fits_witness :
  0 < ar_width (App.aspectRatio Sample.composed) /\
  30 < 60 /\
  App.canvasScale
    (App.finalState
       (Controls.fitToScreen (Some (30, 700)) Sample.composed
          Sample.composed)) < 0 /\
  App.canvasScale
    (App.finalState
       (Controls.fitToScreen (Some (1260, 700)) Sample.composed
          Sample.composed)) <= 0.8.
Proof.
  assert (0 < ar_width (App.aspectRatio Sample.composed)) as Hw
    by (vm_compute; reflexivity).
  assert (30 < 60) as Hsmall by (vm_compute; reflexivity).
  split; [exact Hw |]. split; [exact Hsmall |]. split.
  - exact (proj2 (proj2 (proj2 (proj2
             (fitToScreen_fits 30 700 Sample.composed Sample.composed))))
             Hw Hsmall).
  - exact (proj1 (fitToScreen_fits 1260 700 Sample.composed
                    Sample.composed)).
Defined.

Lemma viewportScale_on_mobile_witness :
  let phone := App.finalState (Program.checkMobile 390 Sample.composed) in
  let desk := App.finalState (Program.checkMobile 1280 Sample.composed) in
  390 < 768 /\ 768 <= 1280 /\
  App.isMobile phone = true /\
  Controls.viewportScale 390 phone == 0.414375 /\
  Controls.viewportScale 390
    (Controls.zoomClicks Responsive [Controls.ZoomIn; Controls.ZoomIn] phone)
  = Controls.viewportScale 390 phone /\
  Controls.viewportScale 1280 desk = App.canvasScale Sample.composed.
Proof.
  cbv zeta.
  assert (390 < 768) as Hphone by (vm_compute; reflexivity).
  assert (768 <= 1280) as Hdesk by (vm_compute; discriminate).
  split; [exact Hphone |]. split; [exact Hdesk |].
  split; [reflexivity |].
  destruct (proj1 (viewportScale_on_mobile 390 1
                     [Controls.ZoomIn; Controls.ZoomIn] Sample.composed)
              Hphone) as (Hscale & _ & Hclicks).
  split; [rewrite Hscale; vm_compute; reflexivity |].
  split; [exact Hclicks |].
  exact (proj1 (proj2 (viewportScale_on_mobile 1280 1 [] Sample.composed)
                  Hdesk)).
Defined.

Lemma handleKeyDown_deletes_selection_only_witness :
  App.invoke (Controls.handleKeyDown "Backspace" "TEXTAREA") Sample.composed
  = (JS.Normal tt, Sample.composed, []) /\
  App.selectedLayerId
    (App.finalState
       (App.invoke (Controls.handleKeyDown "Delete" "BODY") Sample.composed))
  = None.
Proof.
  split.
  - exact (proj1 (handleKeyDown_deletes_selection_only "Backspace" "TEXTAREA"
                    Sample.composed) (or_intror eq_refl)).
  - assert ("BODY" <> "INPUT") as H1 by discriminate.
    assert ("BODY" <> "TEXTAREA") as H2 by discriminate.
    assert ("b" <> EmptyString) as H3 by discriminate.
    exact (proj2 (proj2 (proj2 (proj2 (proj2
             (handleKeyDown_deletes_selection_only "Delete" "BODY"
                Sample.composed))) "b" (or_introl eq_refl) H1 H2 eq_refl H3))).
Defined.

Lemma stickerFontSize_fits_box_witness :
  Controls.stickerFontSize
    (mkLayer "k" STICKER 0 0 150 150 0 "✨" None) == 120.
Proof.
  rewrite (proj2 (proj2 (proj2
    (stickerFontSize_fits_box (mkLayer "k" STICKER 0 0 150 150 0 "✨" None)
       ltac:(vm_compute; discriminate) ltac:(vm_compute; discriminate))))).
  - vm_compute. reflexivity.
  - reflexivity.
Defined.

(* ================================================================== *)
(** * Further properties of the caption service *)
(* ================================================================== *)

Section CaptionOutcomes.

Import JS GeminiService.

Variable API_KEY : option string.
Variable generateContent : Client -> string -> string -> Completion Response.
Variable trim : string -> string.

(** X28. With a non-empty credential and an API call that resolves with
    a text, the caption is that text trimmed, the call having been made
    with the model [gemini-2.5-flash], a client for that credential and
    the prompt for the topic; nothing is written to the console. *)
Theorem generateCaption_returns_trimmed_text (topic : option string)
    (key t : string) :
  API_KEY = Some key -> key <> EmptyString ->
  generateContent {| apiKey := key |} "gemini-2.5-flash" (prompt topic)
    = Normal {| text := Some t |} ->
  generateCaption API_KEY generateContent trim topic = (Normal (trim t), []).
Proof.
  intros Hkey Hne Hcall. apply String.eqb_neq in Hne.
  unfold generateCaption, tryBlock, getClient.
  rewrite Hkey. cbn. rewrite Hne. cbn. now rewrite Hcall.
Qed.

(** X29. An empty credential counts as a missing one, and a response
    without text counts as a failure: both give the fallback caption
    and one console line.  An empty topic is treated as no topic: the
    generic prompt is sent and the outcome is the same. *)
Theorem generateCaption_degenerate_inputs (topic : option string) :
  (API_KEY = Some EmptyString ->
   generateCaption API_KEY generateContent trim topic
   = (Normal FALLBACK, ["Gemini API Error: API Key is missing"])) /\
  (forall ai,
     getClient API_KEY = Normal ai ->
     generateContent ai "gemini-2.5-flash" (prompt topic)
       = Normal {| text := None |} ->
     fst (generateCaption API_KEY generateContent trim topic)
     = Normal FALLBACK) /\
  prompt (Some EmptyString) = prompt None /\
  generateCaption API_KEY generateContent trim (Some EmptyString)
  = generateCaption API_KEY generateContent trim None.
Proof.
  split; [| split; [| split]].
  - intros Hkey. unfold generateCaption, tryBlock, getClient.
    rewrite Hkey. reflexivity.
  - intros ai Hc Hcall. unfold generateCaption, tryBlock.
    rewrite Hc, Hcall. reflexivity.
  - reflexivity.
  - reflexivity.
Qed.

End CaptionOutcomes.

Lemma generateCaption_returns_trimmed_text_witness :
  GeminiService.generateCaption (Some "k-123")
    (fun _ _ _ => JS.Normal (GeminiService.mkResponse (Some " 晴空万里 ")))
    (fun _ => "晴空万里") (Some "海边")
  = (JS.Normal "晴空万里", []).
Proof.
  apply (generateCaption_returns_trimmed_text (Some "k-123")
           (fun _ _ _ => JS.Normal (GeminiService.mkResponse (Some " 晴空万里 ")))
           (fun _ => "晴空万里") (Some "海边") "k-123" " 晴空万里 ");
    [reflexivity | discriminate | reflexivity].
Defined.

Lemma generateCaption_degenerate_inputs_witness :
  GeminiService.generateCaption (Some EmptyString)
    (fun _ _ _ => JS.Normal (GeminiService.mkResponse (Some "x")))
    (fun t => t) None
  = (JS.Normal GeminiService.FALLBACK,
     ["Gemini API Error: API Key is missing"]).
Proof.
  exact (proj1 (generateCaption_degenerate_inputs (Some EmptyString)
                  (fun _ _ _ => JS.Normal (GeminiService.mkResponse (Some "x")))
                  (fun t => t) None) eq_refl).
Defined.

(* ================================================================== *)
(** * The style invariant along a session *)
(* ================================================================== *)

Section ProgramInvariant.

Import JS App LayerComponent LayerStore Controls Program.

Lemma storeInvariant_initialState : storeInvariant initialState.
Proof. split; constructor. Qed.

(** The invariant speaks of the layers only. *)
Lemma storeInvariant_same_layers (s s' : AppState) :
  layers s' = layers s -> storeInvariant s -> storeInvariant s'.
Proof. unfold storeInvariant, wellStyled. now intros ->. Qed.

(** [updateLayer] with fields that carry no [id] and meet [keepsKind]. *)
Lemma updateLayer_keeps_storeInvariant (lid : string) (fields : PartialLayer)
    (s : AppState) :
  p_id fields = None -> keepsKind s (update lid fields) ->
  storeInvariant s -> storeInvariant (finalState (updateLayer lid fields s)).
Proof.
  intros Hid Hk [Hst Hnd]. split.
  - exact (step_keeps_wellStyled s (update lid fields) Hst Hk).
  - cbn. rewrite updateLayer_ids by exact Hid. exact Hnd.
Qed.

Lemma deleteLayer_keeps_storeInvariant (lid : string) (s : AppState) :
  storeInvariant s -> storeInvariant (finalState (deleteLayer lid s s)).
Proof.
  intros [Hst Hnd]. split.
  - exact (step_keeps_wellStyled s (delete lid) Hst I).
  - unfold deleteLayer.
    destruct (strict_eq (selectedLayerId s) (Some lid)); cbn;
      apply NoDup_ids_filter; exact Hnd.
Qed.

(** Every step of the program keeps the invariant of the store. *)
Lemma perform_keeps_storeInvariant (a : Action) (s : AppState) :
  storeInvariant s -> freshAt s a -> storeInvariant (finalState (perform a s)).
Proof.
  intros Hinv Hfresh. pose proof Hinv as [Hst Hnd].
  destruct a as [rev img isReplace | rev | rev uuid | rev uuid glyph
                | lid c e | lid d | lid c deg | lid value | lid fields
                | lid | key tagName | sel | frame | bg | rev b | container
                | innerWidth | rev toPng now]; cbn [perform freshAt] in *.
  - unfold invoke, handleImageUpload.
    destruct rev;
      match goal with
      | |- context [if ?b then _ else _] => destruct b
      end; exact Hinv.
  - destruct rev; split; constructor.
  - split.
    + exact (step_keeps_wellStyled s (addText rev uuid) Hst I).
    + unfold invoke, addTextLayer.
      destruct (truthy (image s)); cbn; [| exact Hnd].
      apply NoDup_ids_snoc; assumption.
  - split.
    + exact (step_keeps_wellStyled s (addSticker rev uuid glyph) Hst I).
    + unfold invoke, addStickerLayer.
      destruct (truthy (image s)); cbn; [| exact Hnd].
      apply NoDup_ids_snoc; assumption.
  - unfold forLayer. destruct (layerProp lid s) as [layer |] eqn:Hprop;
      [| exact Hinv].
    apply updateLayer_keeps_storeInvariant; [reflexivity | | exact Hinv].
    exact (proj1 (component_updates_keep_kind lid c e (0, 0) EmptyString 0
                    s layer Hnd Hprop)).
  - unfold forLayer. destruct (layerProp lid s) as [layer |] eqn:Hprop;
      [| exact Hinv].
    apply updateLayer_keeps_storeInvariant; [reflexivity | | exact Hinv].
    split; [reflexivity |]. intros H. now contradiction H.
  - unfold forLayer. destruct (layerProp lid s) as [layer |] eqn:Hprop;
      [| exact Hinv].
    apply updateLayer_keeps_storeInvariant; [reflexivity | | exact Hinv].
    split; [reflexivity |]. intros H. now contradiction H.
  - unfold forLayer. destruct (layerProp lid s) as [layer |] eqn:Hprop;
      [| exact Hinv].
    apply updateLayer_keeps_storeInvariant; [reflexivity | | exact Hinv].
    split; [reflexivity |]. intros H. now contradiction H.
  - split.
    + exact (step_keeps_wellStyled s (updateStyle lid fields) Hst I).
    + rewrite updateLayerStyle_ids. exact Hnd.
  - now apply deleteLayer_keeps_storeInvariant.
  - unfold invoke, handleKeyDown.
    destruct ((String.eqb key "Delete" || String.eqb key "Backspace")
              && truthy (selectedLayerId s)); [| exact Hinv].
    destruct (String.eqb tagName "INPUT" || String.eqb tagName "TEXTAREA");
      [exact Hinv |].
    destruct (selectedLayerId s) as [sel |] eqn:Hsel; [| exact Hinv].
    now apply deleteLayer_keeps_storeInvariant.
  - exact Hinv.
  - exact Hinv.
  - exact Hinv.
  - destruct b; exact Hinv.
  - destruct container as [[contW contH] |]; exact Hinv.
  - exact Hinv.
  - apply (storeInvariant_same_layers s); [| exact Hinv].
    exact (proj1 (proj2 (proj2 (export_selection_facts toPng now rev s)))).
Qed.

(** C5. However the program drives the store, [style] stays present
    exactly on the TEXT layers: starting from a session in which every
    layer has a style if and only if it is a TEXT layer and no two
    layers share an id, this is so again after any sequence of steps
    (uploads, reset, adding a text or a sticker, the drag, resize,
    rotate and edit callbacks of the layer components, the properties
    panel, deletion by button or by key, selection, frame, background
    and zoom controls, the effects, export), each new layer being given
    an id no layer carries.  The empty session a run starts from meets
    the condition ([storeInvariant_initialState]). *)
Theorem program_keeps_style_on_text_only (acts : list Action) (s : AppState) :
  (forall l, In l (layers s) -> (style l <> None <-> type l = TEXT)) ->
  NoDup (map id (layers s)) ->
  freshAlong s acts ->
  let s' := performAll acts s in
  (forall l, In l (layers s') -> (style l <> None <-> type l = TEXT)) /\
  NoDup (map id (layers s')).
Proof.
  intros Hst Hnd Hfresh. cbv zeta.
  assert (storeInvariant (performAll acts s)) as [Hst' Hnd'].
  { assert (storeInvariant s) as Hinv
      by (split; [apply Forall_forall; exact Hst | exact Hnd]).
    clear Hst Hnd. revert s Hinv Hfresh.
    induction acts as [| a acts IH]; intros s Hinv Hfresh; [exact Hinv |].
    destruct Hfresh as [Ha Hrest]. cbn [performAll].
    apply IH; [| exact Hrest].
    now apply perform_keeps_storeInvariant. }
  split; [| exact Hnd'].
  exact (proj1 (Forall_forall _ _) Hst').
Qed.

End ProgramInvariant.

Lemma program_keeps_style_on_text_only_witness :
  let grow :=
    {| LayerComponent.direction := LayerComponent.BottomRight;
       LayerComponent.ref_width := 600; LayerComponent.ref_height := 225;
       LayerComponent.position := (200, 225) |} in
  let gesture :=
    LayerComponent.onResizeStart
      {| id := "a"; type := TEXT; x := 200; y := 225; width := 400;
         height := 150; rotation := 0; content := "双击编辑文本";
         style := Some App.INITIAL_TEXT_STYLE |} LayerComponent.mount in
  let session :=
    [Program.CheckMobile 1280;
     Program.LoadImage Responsive Sample.photo false;
     Program.AddText Responsive "a";
     Program.AddSticker Responsive "b" "✨";
     Program.Resize "a" gesture grow;
     Program.Resize "b" LayerComponent.mount grow;
     Program.Rotate "b" LayerComponent.mount 88;
     Program.DragStop "a" (10, 20);
     Program.EditContent "b" "🔥";
     Program.EditStyle "b"
       (mkPartialFontStyle None (Some 40) None None None None None None None);
     Program.EditStyle "a"
       (mkPartialFontStyle None (Some 40) None None None None None None None);
     Program.Export Responsive Sample.toPngSlowOnly Sample.clock;
     Program.Select (Some "a");
     Program.AddText Desktop "c";
     Program.KeyDown "Backspace" "TEXTAREA";
     Program.Delete "a"] in
  Program.freshAlong App.initialState session /\
  map (fun l => (id l, type l, LayerStore.styleIffTextb l))
      (App.layers (Program.performAll session App.initialState))
  = [("b", STICKER, true); ("c", TEXT, true)] /\
  (forall l, In l (App.layers (Program.performAll session App.initialState)) ->
             (style l <> None <-> type l = TEXT)).
Proof.
  cbv zeta.
  match goal with
  | |- ?F /\ _ => assert F as Hfresh
  end.
  { vm_compute. repeat split; intros H; intuition discriminate. }
  split; [exact Hfresh |]. split; [reflexivity |].
  apply (program_keeps_style_on_text_only _ App.initialState);
    [intros l [] | constructor | exact Hfresh].
Defined.

(* ================================================================== *)
(** * Rotation snapping and the turns already made *)
(* ================================================================== *)

Section RotateWinding.

Import JS App LayerComponent.

Lemma nearest_is_snapAngle (n : Q) : In (Spec.nearest n) Spec.snapAngles.
Proof.
  unfold Spec.nearest, Spec.closer, Spec.snapAngles. cbn [fold_left].
  repeat match goal with
         | |- context [if ltb ?a ?b then _ else _] => destruct (ltb a b)
         end; cbn; auto.
Qed.

(** The snap windows are open: a rotation is in one when it lies
    strictly less than 5 degrees from one of the four angles. *)
Lemma window_iff (n : Q) :
  existsb (Spec.within5 n) Spec.snapAngles = true <->
  exists a, In a Spec.snapAngles /\ Spec.angularDistance n a < 5.
Proof.
  rewrite existsb_exists. unfold Spec.within5.
  split; intros [a [Hin H]]; exists a; (split; [exact Hin |]);
    apply ltb_lt; exact H.
Qed.

(** [Math.round(r / 360)] is the number of whole turns in [r] when
    what is left is below half a turn, and one more otherwise. *)
Lemma round_of_turns (r : Q) :
  (Spec.normalize r < 180 ->
   Math_round (r / 360) = inject_Z (Qfloor (r / 360))) /\
  (180 <= Spec.normalize r ->
   Math_round (r / 360) = inject_Z (Qfloor (r / 360) + 1)).
Proof.
  unfold Spec.normalize, Math_round.
  pose proof (turns r) as Hr. destruct (floor_bounds (r / 360)) as [Lo Hi].
  set (v := r / 360) in *. clearbody v.
  split; intros Hn; f_equal; apply Qfloor_unique;
    rewrite ?inject_Z_plus; change (inject_Z 1) with 1;
    set (q := inject_Z (Qfloor v)) in *; clearbody q; lra.
Qed.

(** Below half a turn, and in the window under a whole turn, a snap
    moves the stored value by less than 5 degrees. *)
Lemma snap_keeps_winding (r : Q) :
  existsb (Spec.within5 (Spec.normalize r)) Spec.snapAngles = true ->
  Spec.normalize r < 180 \/ 355 < Spec.normalize r ->
  Qabs (snap r - r) < 5.
Proof.
  intros Hw Hzone.
  destruct (normalize_range r) as [Lo Hi].
  destruct (snap_refines r) as [[_ Hs] | [Hout _]]; [| congruence].
  destruct (nearest_in_window _ Lo Hi Hw) as [Hnear Hfour].
  unfold Spec.within5 in Hnear. apply ltb_lt in Hnear.
  unfold Spec.angularDistance in Hnear.
  destruct (round_of_turns r) as [Hlow Hhigh].
  rewrite Hs.
  assert (r == Spec.normalize r + 360 * inject_Z (Qfloor (r / 360))) as Hr
    by (unfold Spec.normalize; ring).
  set (n := Spec.normalize r) in *. clearbody n.
  set (t := Spec.nearest n) in *. clearbody t.
  destruct (Qabs_cases (n - t)) as [[Ha Ea] | [Ha Ea]];
    destruct (Qmin_cases (Qabs (n - t)) (360 - Qabs (n - t)))
      as [[Hm Em] | [Hm Em]];
    rewrite Em in Hnear; clear Em;
    set (d := Qabs (n - t)) in *; clearbody d;
    (destruct Hzone as [Hz | Hz];
     [ rewrite (Hlow Hz)
     | rewrite (Hhigh ltac:(lra)), inject_Z_plus;
       change (inject_Z 1) with 1 ]);
    set (q := inject_Z (Qfloor (r / 360))) in *; clearbody q;
    match goal with
    | |- Qabs ?e < 5 =>
        destruct (Qabs_cases e) as [[Hb Eb] | [Hb Eb]]; rewrite Eb; clear Eb
    end;
    destruct Hfour as [E | [E | [E | E]]]; rewrite E in *; lra.
Qed.

(** C2, as the code has it.  In a rotate gesture the raw rotation of
    a move is the pointer angle minus the offset taken when the gesture
    began.  With [n] that rotation normalised to [[0, 360)]: when [n]
    lies strictly less than 5 degrees (on the circle) from one of 0,
    90, 180, 270, the stored rotation is a whole number of turns plus
    the nearest of the four, so the layer points exactly there; and
    when moreover [n] is below 180 or above 355, the stored rotation
    is less than 5 degrees from the raw one, so the turns already made
    are kept.  Otherwise, and so at exactly 5 degrees, the raw rotation
    is stored as it is.  A raw 88 is stored as 90; a raw 84 stays 84
    and a raw 85 stays 85. *)
Theorem rotate_snaps_to_nearest_right_angle (lid : string) (c : Component)
    (startAngle : number) (degs : list number) (deg : number)
    (s : AppState) (layer : Layer) :
  layerProp lid s = Some layer ->
  let offset := startAngle - rotation layer in
  let raw := deg - offset in
  let n := Spec.normalize raw in
  let t := Spec.nearest n in
  let inWindow := existsb (Spec.within5 n) Spec.snapAngles in
  exists layer',
    layerProp lid (rotateGesture lid c startAngle (degs ++ [deg]) s)
      = Some layer' /\
    (0 <= n /\ n < 360) /\
    (inWindow = true <->
     exists a, In a Spec.snapAngles /\ Spec.angularDistance n a < 5) /\
    (inWindow = true ->
     In t Spec.snapAngles /\ Spec.angularDistance n t < 5 /\
     (exists k : Z, rotation layer' == inject_Z k * 360 + t) /\
     Spec.normalize (rotation layer') == t /\
     (n < 180 \/ 355 < n -> Qabs (rotation layer' - raw) < 5)) /\
    (inWindow = false -> rotation layer' = raw) /\
    snap 88 = 90 /\ snap 84 = 84 /\ snap 85 = 85.
Proof.
  intros Hprop. cbv zeta. unfold rotateGesture. rewrite Hprop.
  destruct (rotateMoves_last lid (handleRotateStart layer startAngle c) deg
              degs s layer Hprop) as (layer' & Hp & Hrot).
  cbn [rotateOffset handleRotateStart] in Hrot.
  exists layer'. split; [exact Hp |].
  destruct (normalize_range (deg - (startAngle - rotation layer)))
    as [Lo Hi].
  split; [split; assumption |].
  split; [apply window_iff |].
  rewrite Hrot.
  split; [| split; [| repeat split; vm_compute; reflexivity]].
  - intros Hw.
    destruct (nearest_in_window _ Lo Hi Hw) as [Hnear Hfour].
    destruct (snap_refines (deg - (startAngle - rotation layer)))
      as [[_ Hs] | [Hout _]]; [| congruence].
    assert (0 <= Spec.nearest
                   (Spec.normalize (deg - (startAngle - rotation layer))) /\
            Spec.nearest
              (Spec.normalize (deg - (startAngle - rotation layer))) < 360)
      as [Lt Ht].
    { destruct Hfour as [E | [E | [E | E]]]; rewrite E; split; lra. }
    split; [apply nearest_is_snapAngle |].
    split; [now apply ltb_lt |].
    split; [| split].
    + unfold Math_round in Hs. eexists. exact Hs.
    + rewrite (normalize_comp _ _ Hs). unfold Math_round.
      now apply normalize_turns.
    + now apply snap_keeps_winding.
  - intros Hout.
    destruct (snap_refines (deg - (startAngle - rotation layer)))
      as [[Hw _] | [_ Hs]]; [congruence | exact Hs].
Qed.

End RotateWinding.

(** C2 as the specification words it does not hold.  A raw rotation of
    182 degrees, in the window of 180, is stored as 540: a whole turn
    is added, although the raw rotation had made none.  A raw rotation
    of 85 degrees, 5 degrees from 90, is stored as 85 and not as what
    the snapping formula gives. *)
Lemma rotate_snap_adds_turn_and_skips_edge :
  (exists layer layer',
     LayerComponent.layerProp "a" Sample.composed = Some layer /\
     LayerComponent.layerProp "a"
       (LayerComponent.rotateGesture "a" LayerComponent.mount 45 [227]
          Sample.composed) = Some layer' /\
     let raw := 227 - (45 - rotation layer) in
     raw == 182 /\
     Spec.normalize raw == 182 /\
     Spec.angularDistance (Spec.normalize raw) 180 < 5 /\
     rotation layer' == 540 /\
     ~ Qabs (rotation layer' - raw) <= 5) /\
  (exists layer layer',
     LayerComponent.layerProp "a" Sample.composed = Some layer /\
     LayerComponent.layerProp "a"
       (LayerComponent.rotateGesture "a" LayerComponent.mount 45 [130]
          Sample.composed) = Some layer' /\
     let raw := 130 - (45 - rotation layer) in
     raw == 85 /\
     Spec.normalize raw == 85 /\
     Spec.angularDistance (Spec.normalize raw) 90 <= 5 /\
     rotation layer' == 85 /\
     ~ rotation layer'
       == JS.Math_round (raw / 360) * 360 + Spec.nearest (Spec.normalize raw)).
Proof.
  split; eexists; eexists; (split; [reflexivity |]);
    (split; [vm_compute; reflexivity |]); cbv zeta;
    (split; [vm_compute; reflexivity |]);
    (split; [vm_compute; reflexivity |]).
  - split; [vm_compute; reflexivity |].
    split; [vm_compute; reflexivity |].
    vm_compute. intros H. apply H. reflexivity.
  - split; [vm_compute; discriminate |].
    split; [vm_compute; reflexivity |].
    vm_compute. discriminate.
Qed.

Lemma rotate_snaps_to_nearest_right_angle_witness :
  (exists layer',
     LayerComponent.layerProp "a"
       (LayerComponent.rotateGesture "a" LayerComponent.mount 45 [100; 133]
          Sample.composed) = Some layer' /\
     Spec.normalize (rotation layer') == 90 /\
     Qabs (rotation layer' - 88) < 5) /\
  (exists layer',
     LayerComponent.layerProp "a"
       (LayerComponent.rotateGesture "a" LayerComponent.mount 45 [100; 129]
          Sample.composed) = Some layer' /\
     rotation layer' == 84).
Proof.
  split.
  - destruct (rotate_snaps_to_nearest_right_angle "a" LayerComponent.mount 45
                [100] 133 Sample.composed _ eq_refl)
      as (layer' & Hp & _ & _ & Hin & _).
    destruct (Hin eq_refl) as (_ & _ & _ & Hdir & Hwind).
    exists layer'. split; [exact Hp |].
    split; [exact Hdir |].
    apply Hwind. left. vm_compute. reflexivity.
  - destruct (rotate_snaps_to_nearest_right_angle "a" LayerComponent.mount 45
                [100] 129 Sample.composed _ eq_refl)
      as (layer' & Hp & _ & _ & _ & Hout & _).
    exists layer'. split; [exact Hp |].
    rewrite (Hout eq_refl). vm_compute. reflexivity.
Defined.
